(** * dependabot-drupal-mrn: the release-notes action, embedded and verified

    A shallow embedding of [src/index.js]: the tag fetcher
    [fetchProjectTags], the version mapper [mapVersionToTag] and the
    orchestrator [run], followed by the properties of the specification
    that were checked against them.

    JavaScript strings are sequences of UTF-16 code units; they are
    modelled as lists of code units, so that [trim], [\s] and [\d] can
    be given their ECMAScript meaning. *)

From Stdlib Require Import List NArith Bool Arith Lia String Ascii.
Import ListNotations.

Set Implicit Arguments.

(* ================================================================= *)
(** ** JavaScript strings *)

Module Js.

Definition jsstring := list N.

(** An ASCII literal of the source, as code units. *)
Fixpoint js (s : string) : jsstring :=
  match s with
  | EmptyString => []
  | String c s' => N_of_ascii c :: js s'
  end.

Arguments js _%_string.

(** U+2192, the arrow used in the rendered text and in the log. *)
Definition arrow : jsstring := [8594%N].

Fixpoint eqb (a b : jsstring) : bool :=
  match a, b with
  | [], [] => true
  | x :: a', y :: b' => N.eqb x y && eqb a' b'
  | _, _ => false
  end.

(** A string is falsy exactly when it is empty. *)
Definition truthy (s : jsstring) : bool :=
  match s with [] => false | _ => true end.

(** [WhiteSpace] and [LineTerminator] of ECMAScript: what [\s] matches
    and what [String.prototype.trim] strips. *)
Definition is_space (c : N) : bool :=
  ((9 <=? c) && (c <=? 13) || (c =? 32) || (c =? 160) || (c =? 5760)
   || (8192 <=? c) && (c <=? 8202) || (c =? 8232) || (c =? 8233)
   || (c =? 8239) || (c =? 8287) || (c =? 12288) || (c =? 65279))%N.

(** [\d] and [[0-9]]. *)
Definition is_digit (c : N) : bool := ((48 <=? c) && (c <=? 57))%N.

Fixpoint dropWhile (p : N -> bool) (s : jsstring) : jsstring :=
  match s with
  | [] => []
  | c :: s' => if p c then dropWhile p s' else s
  end.

(** [s.trim()] *)
Definition trim (s : jsstring) : jsstring :=
  rev (dropWhile is_space (rev (dropWhile is_space s))).

(** [s.startsWith(p)] *)
Fixpoint startsWith (p s : jsstring) : bool :=
  match p, s with
  | [], _ => true
  | x :: p', y :: s' => N.eqb x y && startsWith p' s'
  | _ :: _, [] => false
  end.

(** [s.includes(p)] *)
Fixpoint includes (p s : jsstring) : bool :=
  startsWith p s ||
  match s with
  | [] => false
  | _ :: s' => includes p s'
  end.

(** [s.replace(p, r)] with a string pattern: the first occurrence of
    [p] is replaced; [r] is taken literally (the source passes [''],
    which has no [$] pattern). *)
Fixpoint replace (p r s : jsstring) : jsstring :=
  if startsWith p s then r ++ skipn (List.length p) s
  else match s with
       | [] => []
       | c :: s' => c :: replace p r s'
       end.

(** [s.split(sep)] for a separator of one code unit (the source splits
    on [',']).  The result is never empty: [''.split(',')] is [['']]. *)
Fixpoint split (sep : N) (s : jsstring) : list jsstring :=
  match s with
  | [] => [[]]
  | c :: s' =>
      if N.eqb c sep then [] :: split sep s'
      else match split sep s' with
           | piece :: rest => (c :: piece) :: rest
           | [] => [[c]]
           end
  end.

(** [l.includes(x)] on an array of strings. *)
Definition array_includes (l : list jsstring) (x : jsstring) : bool :=
  existsb (eqb x) l.

(** Decimal rendering of a non-negative integer, as in a template
    literal. *)
Fixpoint of_uint (d : Decimal.uint) : jsstring :=
  match d with
  | Decimal.Nil => []
  | Decimal.D0 d => 48%N :: of_uint d
  | Decimal.D1 d => 49%N :: of_uint d
  | Decimal.D2 d => 50%N :: of_uint d
  | Decimal.D3 d => 51%N :: of_uint d
  | Decimal.D4 d => 52%N :: of_uint d
  | Decimal.D5 d => 53%N :: of_uint d
  | Decimal.D6 d => 54%N :: of_uint d
  | Decimal.D7 d => 55%N :: of_uint d
  | Decimal.D8 d => 56%N :: of_uint d
  | Decimal.D9 d => 57%N :: of_uint d
  end.

Definition of_N (n : N) : jsstring := of_uint (N.to_uint n).

End Js.

Import Js.

(* ================================================================= *)
(** ** Regular expressions

    A backtracking matcher for the fragment of ECMAScript regular
    expressions the source uses: literals, character classes, greedy
    [+] and [*] on a class, a greedy optional group, capture groups and
    the end anchor.  Both expressions of the source start with [^] and
    carry no flag, so a match is attempted at index 0 only. *)

Module Regex.

Inductive re : Type :=
| Eps                         (* the empty expression *)
| Chr (c : N)                 (* a literal code unit *)
| Cls (p : N -> bool)         (* a character class *)
| Plus (p : N -> bool)        (* class+, greedy *)
| Star (p : N -> bool)        (* class*, greedy *)
| Seq (a b : re)
| Opt (a : re)                (* (?:a)?, greedy *)
| Cap (a : re)                (* (a) *)
| Eos.                        (* $ *)

Section Matcher.
Variable R : Type.

(** Greedy repetition of a class: the longest run is tried first and
    shortened one unit at a time when the continuation fails. *)
Fixpoint star (p : N -> bool) (s : jsstring) (k : jsstring -> option R)
  : option R :=
  match s with
  | c :: s' =>
      if p c then
        match star p s' k with
        | Some r => Some r
        | None => k s
        end
      else k s
  | [] => k s
  end.

Definition plus (p : N -> bool) (s : jsstring) (k : jsstring -> option R)
  : option R :=
  match s with
  | c :: s' => if p c then star p s' k else None
  | [] => None
  end.

(** [exec r s caps k]: match [r] at the head of [s], then continue
    with [k] on the rest of the input and the captures so far. *)
Fixpoint exec (r : re) (s : jsstring) (caps : list jsstring)
         (k : jsstring -> list jsstring -> option R) : option R :=
  match r with
  | Eps => k s caps
  | Chr c =>
      match s with
      | x :: s' => if N.eqb x c then k s' caps else None
      | [] => None
      end
  | Cls p =>
      match s with
      | x :: s' => if p x then k s' caps else None
      | [] => None
      end
  | Plus p => plus p s (fun s' => k s' caps)
  | Star p => star p s (fun s' => k s' caps)
  | Seq a b => exec a s caps (fun s' caps' => exec b s' caps' k)
  | Opt a =>
      match exec a s caps k with
      | Some r => Some r
      | None => k s caps
      end
  | Cap a =>
      exec a s caps
           (fun s' caps' =>
              k s' (caps' ++ [firstn (List.length s - List.length s') s]))
  | Eos =>
      match s with
      | [] => k s caps
      | _ :: _ => None
      end
  end.
End Matcher.

(** Concatenation of a sequence of expressions. *)
Fixpoint seqs (l : list re) : re :=
  match l with
  | [] => Eps
  | r :: l' => Seq r (seqs l')
  end.

(** [s.match(r)] for an anchored expression without the [g] flag: the
    capture groups of the match, or [None] for [null]. *)
Definition match_ (r : re) (s : jsstring) : option (list jsstring) :=
  exec r s [] (fun _ caps => Some caps).

(** [s.replace(r, '')] for an anchored expression without the [g]
    flag: the matched prefix is removed, or [s] is returned as it is. *)
Definition replace_empty (r : re) (s : jsstring) : jsstring :=
  match exec r s [] (fun rest _ => Some rest) with
  | Some rest => rest
  | None => s
  end.

End Regex.

(* ================================================================= *)
(** ** The version mapper *)

Definition dot : N := 46.
Definition colon : N := 58.
Definition comma : N := 44.
Definition hash : N := 35.
Definition nl : jsstring := [10%N].

(** [/^(\d+)\.(\d+)\.(\d+)$/] *)
Definition semver_re : Regex.re :=
  Regex.seqs
    [Regex.Cap (Regex.Plus is_digit); Regex.Chr dot;
     Regex.Cap (Regex.Plus is_digit); Regex.Chr dot;
     Regex.Cap (Regex.Plus is_digit); Regex.Eos].

(** [mapVersionToTag(version, tags)], index.js lines 31-52. *)
Definition mapVersionToTag (version : jsstring) (tags : list jsstring)
  : jsstring :=
  if array_includes tags version then version
  else
    match Regex.match_ semver_re version with
    | Some (major :: minor :: _) =>
        let legacyTag := js "8.x-" ++ major ++ js "." ++ minor in
        if array_includes tags legacyTag then legacyTag else version
    | _ => version
    end.

(* ================================================================= *)
(** ** Data exchanged with the outside

    The bodies of the two endpoints are modelled at the shape the
    action reads: every member the source tests before use is optional,
    [nid], [link] and the members of a change record hold a string,
    [null] or nothing, and [summary] is a string, as [replace] is
    called on it. *)

(** A member that is absent, [null] or a string. *)
Inductive field : Type :=
| Undefined
| Null
| Text (s : jsstring).

(** Conversion to string in a template literal. *)
Definition to_string (f : field) : jsstring :=
  match f with
  | Undefined => js "undefined"
  | Null => js "null"
  | Text s => s
  end.

Definition field_truthy (f : field) : bool :=
  match f with
  | Text s => truthy s
  | _ => false
  end.

(** [a || b] *)
Definition field_or (a b : field) : field :=
  if field_truthy a then a else b.

(** [process.env.X || ''] and [pr.body || ''] *)
Definition or_empty (o : option jsstring) : jsstring :=
  match o with
  | Some s => s
  | None => []
  end.

Record tag : Type := { name : jsstring }.

Record change : Type := {
  nid : field;
  link : field;
  summary : jsstring
}.

Record typeGroup : Type := {
  group_type : field;
  group_changes : option (list change)
}.

Record changeRecord : Type := {
  record_url : field;
  record_link : field;
  record_title : field;
  record_summary : field
}.

(** A JSON body: the members of both endpoints, each optional. *)
Record body : Type := {
  tags : option (list tag);
  changes : option (list typeGroup);
  changeRecords : option (list changeRecord)
}.

(** What [response.json()] settles to; [JsonValue None] is [null]. *)
Inductive json_result : Type :=
| JsonRejects (message : jsstring)
| JsonValue (data : option body).

Record response : Type := {
  ok : bool;
  status : N;
  json : json_result
}.

(** What [fetch(url)] settles to. *)
Inductive fetch_result : Type :=
| Rejects (message : jsstring)
| Resolves (r : response).

Record environment : Type := {
  GITHUB_TOKEN : option jsstring;
  DEPENDENCY_NAMES : option jsstring;
  PREVIOUS_VERSION : option jsstring;
  NEW_VERSION : option jsstring
}.

(** [github.context]: [pull_request] is absent or carries an optional
    number. *)
Record context : Type := {
  owner : jsstring;
  repo : jsstring;
  pull_request : option (option N)
}.

(** Everything [run] reads from outside.  [network n url] is what the
    [n]-th call of [fetch] settles to when it is made for [url];
    [pulls_get] is the outcome of reading the pull request (an error
    message, or its body, [None] for [null]); [pulls_update] is the
    error message of the update call when it rejects. *)
Record world : Type := {
  env : environment;
  network : nat -> jsstring -> fetch_result;
  github_context : context;
  pulls_get : jsstring + option jsstring;
  pulls_update : option jsstring
}.

(** What [run] does to the outside, in order. *)
Inductive event : Type :=
| Info (message : jsstring)
| Warning (message : jsstring)
| Error (message : jsstring)
| SetFailed (message : jsstring)
| Fetch (url : jsstring)
| PullsGet (owner repo : jsstring) (pull_number : N)
| PullsUpdate (owner repo : jsstring) (pull_number : N) (body : jsstring).

(** The two mutable locals of [run], the number of [fetch] calls made
    and the events so far. *)
Record state : Type := {
  releaseNotesSection : jsstring;
  hasReleaseNotes : bool;
  calls : nat;
  trace : list event
}.

Definition initial_state : state :=
  {| releaseNotesSection := []; hasReleaseNotes := false;
     calls := 0; trace := [] |}.

(* ================================================================= *)
(** ** A monad for state and exceptions *)

Inductive completion (A : Type) : Type :=
| Normal (a : A)
| Thrown (message : jsstring).

Arguments Normal {A} a.
Arguments Thrown {A} message.

Definition M (A : Type) : Type := state -> completion A * state.

Definition ret {A} (a : A) : M A := fun s => (Normal a, s).

Definition bind {A B} (m : M A) (f : A -> M B) : M B :=
  fun s =>
    match m s with
    | (Normal a, s') => f a s'
    | (Thrown e, s') => (Thrown e, s')
    end.

Definition throw {A} (message : jsstring) : M A :=
  fun s => (Thrown message, s).

(** [try { m } catch (error) { h error.message }]: the state reached
    when the exception was thrown is kept. *)
Definition try_catch {A} (m : M A) (h : jsstring -> M A) : M A :=
  fun s =>
    match m s with
    | (Normal a, s') => (Normal a, s')
    | (Thrown e, s') => h e s'
    end.

Declare Scope monad_scope.
Delimit Scope monad_scope with monad.
Notation "x <- m ;; k" := (bind m (fun x => k))
  (at level 61, m at next level, right associativity) : monad_scope.
Notation "m ;; k" := (bind m (fun _ => k))
  (at level 61, right associativity) : monad_scope.
Open Scope monad_scope.

(** [for (const x of l) { body }] *)
Fixpoint for_of {A} (l : list A) (body : A -> M unit) : M unit :=
  match l with
  | [] => ret tt
  | x :: l' => body x ;; for_of l' body
  end.

Definition emit (e : event) : M unit :=
  fun s =>
    (Normal tt,
     {| releaseNotesSection := releaseNotesSection s;
        hasReleaseNotes := hasReleaseNotes s;
        calls := calls s;
        trace := trace s ++ [e] |}).

Definition core_info (m : jsstring) : M unit := emit (Info m).
Definition core_warning (m : jsstring) : M unit := emit (Warning m).
Definition core_error (m : jsstring) : M unit := emit (Error m).
Definition core_setFailed (m : jsstring) : M unit := emit (SetFailed m).

(** [releaseNotesSection = text] *)
Definition set_section (text : jsstring) : M unit :=
  fun s =>
    (Normal tt,
     {| releaseNotesSection := text;
        hasReleaseNotes := hasReleaseNotes s;
        calls := calls s;
        trace := trace s |}).

(** [releaseNotesSection += text] *)
Definition append (text : jsstring) : M unit :=
  fun s =>
    (Normal tt,
     {| releaseNotesSection := releaseNotesSection s ++ text;
        hasReleaseNotes := hasReleaseNotes s;
        calls := calls s;
        trace := trace s |}).

(** [hasReleaseNotes = b] *)
Definition set_hasReleaseNotes (b : bool) : M unit :=
  fun s =>
    (Normal tt,
     {| releaseNotesSection := releaseNotesSection s;
        hasReleaseNotes := b;
        calls := calls s;
        trace := trace s |}).

Definition get_section : M jsstring :=
  fun s => (Normal (releaseNotesSection s), s).

Definition get_hasReleaseNotes : M bool :=
  fun s => (Normal (hasReleaseNotes s), s).

(* ================================================================= *)
(** ** The action *)

(** [/^#[0-9]+(?:\s+by\s+[^:]+)?:\s*/] *)
Definition not_colon (c : N) : bool := negb (N.eqb c colon).

Definition issue_prefix_re : Regex.re :=
  Regex.seqs
    [Regex.Chr hash; Regex.Plus is_digit;
     Regex.Opt
       (Regex.seqs
          [Regex.Plus is_space; Regex.Chr 98; Regex.Chr 121;
           Regex.Plus is_space; Regex.Plus not_colon]);
     Regex.Chr colon; Regex.Star is_space].

(** The list line of one change, index.js lines 138-142. *)
Definition entry_line (c : change) : jsstring :=
  let issueId := js "#" ++ to_string (nid c) in
  let summaryWithoutId := Regex.replace_empty issue_prefix_re (summary c) in
  js "* [" ++ issueId ++ js "](" ++ to_string (link c) ++ js ")"
    ++ (if truthy summaryWithoutId then js ": " ++ summaryWithoutId else [])
    ++ nl.

(** The message of the [TypeError] that reading [tags] of [null]
    throws on Node.js. *)
Definition null_tags_message : jsstring :=
  js "Cannot read properties of null (reading 'tags')".

Record package : Type := {
  pkg_name : jsstring;
  project : jsstring;
  from : jsstring;
  to : jsstring
}.

(** [versions[i] || versions[0]].  The arrays indexed this way come
    from [split] and are never empty, so the default of [hd] is not
    reached. *)
Definition index_or_first (versions : list jsstring) (i : nat) : jsstring :=
  match nth_error versions i with
  | Some v => if truthy v then v else hd [] versions
  | None => hd [] versions
  end.

(** The filtering loop of index.js lines 71-81, from index [i] on. *)
Fixpoint drupalPackages_from (i : nat) (packages fromVersions toVersions : list jsstring)
  : list package :=
  match packages with
  | [] => []
  | p :: rest =>
      if startsWith (js "drupal/") p then
        {| pkg_name := p;
           project := replace (js "drupal/") [] p;
           from := index_or_first fromVersions i;
           to := index_or_first toVersions i |}
          :: drupalPackages_from (S i) rest fromVersions toVersions
      else drupalPackages_from (S i) rest fromVersions toVersions
  end.

(** Lines 57-81: the three lists of the environment, split, trimmed
    and filtered. *)
Definition drupalPackages (e : environment) : list package :=
  let dependencyNames := or_empty (DEPENDENCY_NAMES e) in
  let previousVersion := or_empty (PREVIOUS_VERSION e) in
  let newVersion := or_empty (NEW_VERSION e) in
  let packages := map trim (split comma dependencyNames) in
  let fromVersions := map trim (split comma previousVersion) in
  let toVersions := map trim (split comma newVersion) in
  drupalPackages_from 0 packages fromVersions toVersions.

Definition initial_section : jsstring :=
  nl ++ nl ++ js "---" ++ nl ++ nl ++ js "## Drupal Release Notes" ++ nl ++ nl.

Definition marker : jsstring := js "## Drupal Release Notes".

Definition releaseNotesUrl (pkg : package) (mappedTo : jsstring) : jsstring :=
  js "https://www.drupal.org/project/" ++ project pkg ++ js "/releases/" ++ mappedTo.

Definition compareUrl (pkg : package) (mappedFrom mappedTo : jsstring) : jsstring :=
  js "https://git.drupalcode.org/project/" ++ project pkg ++ js "/-/compare/"
    ++ mappedFrom ++ js "..." ++ mappedTo.

(** [apiUrl], index.js line 104. *)
Definition apiUrl (pkg : package) (mappedFrom mappedTo : jsstring) : jsstring :=
  js "https://api.drupal-mrn.dev/changelog?project=" ++ project pkg
    ++ js "&from=" ++ mappedFrom ++ js "&to=" ++ mappedTo ++ js "&format=json".

Section Run.
Variable w : world.

(** [await fetch(url)] *)
Definition fetch (url : jsstring) : M response :=
  fun s =>
    let s' := {| releaseNotesSection := releaseNotesSection s;
                 hasReleaseNotes := hasReleaseNotes s;
                 calls := S (calls s);
                 trace := trace s ++ [Fetch url] |} in
    match network w (calls s) url with
    | Rejects e => (Thrown e, s')
    | Resolves r => (Normal r, s')
    end.

(** [await response.json()] *)
Definition response_json (r : response) : M (option body) :=
  match json r with
  | JsonRejects e => throw e
  | JsonValue data => ret data
  end.

(** [fetchProjectTags(project)], index.js lines 9-22. *)
Definition fetchProjectTags (project : jsstring) : M (list jsstring) :=
  try_catch
    (response <- fetch (js "https://api.drupal-mrn.dev/project?project=" ++ project) ;;
     if negb (ok response) then
       core_warning (js "Failed to fetch project tags for " ++ project
                       ++ js ": " ++ of_N (status response)) ;;
       ret []
     else
       data <- response_json response ;;
       match data with
       | None => throw null_tags_message
       | Some d =>
           match tags d with
           | Some l => ret (map name l)
           | None => ret []
           end
       end)
    (fun error =>
       core_warning (js "Error fetching project tags for " ++ project
                       ++ js ": " ++ error) ;;
       ret []).

(** Lines 129-145, one iteration. *)
Definition render_group (g : typeGroup) : M unit :=
  let type := if field_truthy (group_type g)
              then to_string (group_type g) else js "Misc" in
  match group_changes g with
  | None => ret tt
  | Some l =>
      if List.length l =? 0 then ret tt
      else
        append (js "#### " ++ type ++ nl ++ nl) ;;
        for_of l (fun change => append (entry_line change)) ;;
        append nl
  end.

(** Lines 150-157, one iteration. *)
Definition render_record (r : changeRecord) : M unit :=
  let recordUrl := field_or (record_url r) (record_link r) in
  let recordTitle := field_or (record_title r) (record_summary r) in
  if field_truthy recordUrl && field_truthy recordTitle then
    append (js "* [" ++ to_string recordTitle ++ js "]("
              ++ to_string recordUrl ++ js ")" ++ nl)
  else ret tt.

(** [data && data.changes] *)
Definition data_changes (data : option body) : option (list typeGroup) :=
  match data with
  | Some d => changes d
  | None => None
  end.

(** [data.changeRecords && data.changeRecords.length > 0] *)
Definition data_changeRecords (data : option body) : list changeRecord :=
  match data with
  | Some d =>
      match changeRecords d with
      | Some l => l
      | None => []
      end
  | None => []
  end.

(** Lines 119-161: the section of a package with changes. *)
Definition render_notes (pkg : package) (mappedFrom mappedTo : jsstring)
           (data : option body) (groups : list typeGroup) : M unit :=
  set_hasReleaseNotes true ;;
  append (js "### " ++ pkg_name pkg ++ nl ++ nl) ;;
  append (js "**" ++ from pkg ++ js " " ++ arrow ++ js " [" ++ to pkg ++ js "]("
            ++ releaseNotesUrl pkg mappedTo ++ js ")** ([compare]("
            ++ compareUrl pkg mappedFrom mappedTo ++ js "))" ++ nl ++ nl) ;;
  for_of groups render_group ;;
  (if 0 <? List.length (data_changeRecords data) then
     append (js "#### Change Records" ++ nl ++ nl) ;;
     for_of (data_changeRecords data) render_record ;;
     append nl
   else ret tt) ;;
  append nl.

(** Lines 163-166: the block of a package without changes. *)
Definition render_no_notes (pkg : package) (mappedTo : jsstring) : M unit :=
  append (js "### " ++ pkg_name pkg ++ nl ++ nl) ;;
  append (js "**" ++ from pkg ++ js " " ++ arrow ++ js " [" ++ to pkg ++ js "]("
            ++ releaseNotesUrl pkg mappedTo ++ js ")**" ++ nl ++ nl) ;;
  append (js "_No release notes available_" ++ nl ++ nl).

(** Lines 104-172: the changelog request of a package and the text it
    adds to the section. *)
Definition fetch_changelog (pkg : package) (mappedFrom mappedTo : jsstring)
  : M unit :=
  try_catch
    (response <- fetch (apiUrl pkg mappedFrom mappedTo) ;;
     if negb (ok response) then
       core_warning (js "API returned " ++ of_N (status response) ++ js " for "
                       ++ project pkg) ;;
       append (js "### " ++ pkg_name pkg ++ nl ++ nl) ;;
       append (js "_Could not fetch release notes (" ++ from pkg ++ js " " ++ arrow
                 ++ js " " ++ to pkg ++ js ")_" ++ nl ++ nl)
     else
       data <- response_json response ;;
       match data_changes data with
       | Some groups =>
           if 0 <? List.length groups
           then render_notes pkg mappedFrom mappedTo data groups
           else render_no_notes pkg mappedTo
       | None => render_no_notes pkg mappedTo
       end)
    (fun error =>
       core_error (js "Error fetching release notes for " ++ project pkg
                     ++ js ": " ++ error) ;;
       append (js "### " ++ pkg_name pkg ++ nl ++ nl) ;;
       append (js "_Error fetching release notes: " ++ error ++ js "_" ++ nl ++ nl)).

(** Lines 93-172: the body of the loop over the packages. *)
Definition process_package (pkg : package) : M unit :=
  core_info (js "Fetching release notes for " ++ project pkg ++ js " from "
               ++ from pkg ++ js " to " ++ to pkg) ;;
  tags <- fetchProjectTags (project pkg) ;;
  let mappedFrom := mapVersionToTag (from pkg) tags in
  let mappedTo := mapVersionToTag (to pkg) tags in
  (if negb (eqb mappedFrom (from pkg)) || negb (eqb mappedTo (to pkg)) then
     core_info (js "Mapped versions for " ++ project pkg ++ js ": "
                  ++ from pkg ++ js " " ++ arrow ++ js " " ++ mappedFrom ++ js ", "
                  ++ to pkg ++ js " " ++ arrow ++ js " " ++ mappedTo)
   else ret tt) ;;
  fetch_changelog pkg mappedFrom mappedTo.

(** [octokit.rest.pulls.get(...)], giving [pr.body]. *)
Definition octokit_pulls_get (pull_number : N) : M (option jsstring) :=
  emit (PullsGet (owner (github_context w)) (repo (github_context w)) pull_number) ;;
  match pulls_get w with
  | inl e => throw e
  | inr b => ret b
  end.

(** [octokit.rest.pulls.update(...)] *)
Definition octokit_pulls_update (pull_number : N) (newBody : jsstring) : M unit :=
  emit (PullsUpdate (owner (github_context w)) (repo (github_context w))
                    pull_number newBody) ;;
  match pulls_update w with
  | Some e => throw e
  | None => ret tt
  end.

(** [context.payload.pull_request && context.payload.pull_request.number],
    when truthy. *)
Definition pull_request_number (c : context) : option N :=
  match pull_request c with
  | Some (Some n) => if N.eqb n 0 then None else Some n
  | _ => None
  end.

(** [pr.body && pr.body.includes('## Drupal Release Notes')] *)
Definition already_present (b : option jsstring) : bool :=
  match b with
  | Some s => truthy s && includes marker s
  | None => false
  end.

(** [run()], index.js lines 54-216. *)
Definition run : M unit :=
  try_catch
    (let token := GITHUB_TOKEN (env w) in
     if negb (truthy (or_empty token)) then
       throw (js "GITHUB_TOKEN is required")
     else
       let drupalPackages := drupalPackages (env w) in
       if List.length drupalPackages =? 0 then
         core_info (js "No drupal/ packages found in this PR")
       else
         set_section initial_section ;;
         set_hasReleaseNotes false ;;
         for_of drupalPackages process_package ;;
         has <- get_hasReleaseNotes ;;
         (if negb has then
            core_info (js "No release notes were retrieved from the API.")
          else ret tt) ;;
         match pull_request_number (github_context w) with
         | None =>
             core_setFailed
               (js "This action must be run in the context of a pull request")
         | Some number =>
             pr_body <- octokit_pulls_get number ;;
             if already_present pr_body then
               core_info (js "Release notes already present in PR description")
             else
               section <- get_section ;;
               let newBody := or_empty pr_body ++ section in
               octokit_pulls_update number newBody ;;
               core_info
                 (js "Successfully updated PR description with Drupal release notes")
         end)
    (fun error => core_setFailed error).

End Run.

(** The events of a whole run and the final section. *)
Definition run_trace (w : world) : list event :=
  trace (snd (run w initial_state)).

(** The bodies passed to the update call, in order. *)
Fixpoint update_calls (t : list event) : list jsstring :=
  match t with
  | [] => []
  | PullsUpdate _ _ _ b :: t' => b :: update_calls t'
  | _ :: t' => update_calls t'
  end.

(* ================================================================= *)
(** ** Vocabulary of the properties *)

(** The next code unit, if any, is outside the class [p]. *)
Definition stops (p : N -> bool) (s : jsstring) : Prop :=
  match s with
  | [] => True
  | c :: _ => p c = false
  end.

(** Every code unit of [s] is in the class [p]. *)
Definition all (p : N -> bool) (s : jsstring) : Prop :=
  Forall (fun c => p c = true) s.

(** A version of the shape MAJOR.MINOR.PATCH: three non-empty runs of
    digits separated by dots. *)
Definition digits (d : jsstring) : Prop := all is_digit d /\ d <> [].

(** [MAJOR.MINOR.PATCH] *)
Definition semver (major minor patch : jsstring) : jsstring :=
  major ++ js "." ++ minor ++ js "." ++ patch.

(** The optional [ by <names>] part of a summary prefix: nothing, or
    [" by "] and a non-empty list of names free of colons that starts
    with a name. *)
Definition by_clause (b : jsstring) : Prop :=
  b = [] \/
  exists names, b = js " by " ++ names /\ names <> [] /\
                all not_colon names /\ stops is_space names.

(** The environment of the grouped update of the specification. *)
Definition grouped_env : environment :=
  {| GITHUB_TOKEN := Some (js "test-token");
     DEPENDENCY_NAMES := Some (js "drupal/core,other/pkg,drupal/token");
     PREVIOUS_VERSION := Some (js "10.0.0,1.0.0,1.0.0");
     NEW_VERSION := Some (js "10.1.0,1.1.0,1.1.0") |}.

(** The URL [fetchProjectTags] requests. *)
Definition project_url (project : jsstring) : jsstring :=
  js "https://api.drupal-mrn.dev/project?project=" ++ project.

(** [m] completes normally from every state. *)
Definition never_throws {A} (m : M A) : Prop :=
  forall s, exists a, fst (m s) = Normal a.

(** The relation [R] holds between the state before and the state
    after [m], however [m] completes. *)
Definition preserves (R : state -> state -> Prop) {A} (m : M A) : Prop :=
  forall s, R s (snd (m s)).

(** From [s] to [s'] text was only appended to the section and no
    update call was made. *)
Definition quiet (s s' : state) : Prop :=
  (exists text, releaseNotesSection s' = releaseNotesSection s ++ text)
  /\ update_calls (trace s') = update_calls (trace s).

(** The event is an update call. *)
Definition is_update (e : event) : bool :=
  match e with
  | PullsUpdate _ _ _ _ => true
  | _ => false
  end.

(** The state in which the loop over the packages starts (lines 89-90). *)
Definition loop_start : state :=
  {| releaseNotesSection := initial_section; hasReleaseNotes := false;
     calls := 0; trace := [] |}.

(** The state in which the loop ends. *)
Definition after_loop (w : world) : state :=
  snd (for_of (drupalPackages (env w)) (process_package w) loop_start).

(** The heading of a package: its full name. *)
Definition heading (pkg : package) : jsstring :=
  js "### " ++ pkg_name pkg ++ nl ++ nl.

(** [**from -> [to](url)**], with the versions as given and the URL
    of the release notes of [tag]. *)
Definition version_line (pkg : package) (tag : jsstring) : jsstring :=
  js "**" ++ from pkg ++ js " " ++ arrow ++ js " [" ++ to pkg ++ js "]("
    ++ releaseNotesUrl pkg tag ++ js ")**".

(** The compare link between two tags. *)
Definition compare_link (pkg : package) (tagFrom tagTo : jsstring) : jsstring :=
  js " ([compare](" ++ compareUrl pkg tagFrom tagTo ++ js "))".

(** The three blocks that stand for a package without release notes. *)
Inductive placeholder (pkg : package) : jsstring -> Prop :=
| could_not_fetch :
    placeholder pkg
      (heading pkg ++ js "_Could not fetch release notes (" ++ from pkg ++ js " "
         ++ arrow ++ js " " ++ to pkg ++ js ")_" ++ nl ++ nl)
| no_release_notes (tag : jsstring) :
    placeholder pkg
      (heading pkg ++ version_line pkg tag ++ nl ++ nl
         ++ js "_No release notes available_" ++ nl ++ nl)
| fetch_error (message : jsstring) :
    placeholder pkg
      (heading pkg ++ js "_Error fetching release notes: " ++ message ++ js "_"
         ++ nl ++ nl).

(** A changelog request that brings no change: it rejects, its status
    is not a success, its body does not parse, or the body has no
    non-empty [changes]. *)
Definition no_changes (r : fetch_result) : Prop :=
  match r with
  | Rejects _ => True
  | Resolves r =>
      ok r = false \/
      match json r with
      | JsonRejects _ => True
      | JsonValue data =>
          match data_changes data with
          | Some (_ :: _) => False
          | _ => True
          end
      end
  end.

(** The tags [process_package] obtains when it starts in state [s]. *)
Definition fetched_tags (w : world) (pkg : package) (s : state) : list jsstring :=
  match fst (fetchProjectTags w (project pkg) s) with
  | Normal tags => tags
  | Thrown _ => []
  end.

(** What the URL of every changelog request starts with. *)
Definition changelog_prefix : jsstring :=
  js "https://api.drupal-mrn.dev/changelog?project=".

(** Responses, bodies and worlds of the concrete runs. *)
Definition response_ok (b : body) : fetch_result :=
  Resolves {| ok := true; status := 200; json := JsonValue (Some b) |}.

Definition response_status (n : N) : fetch_result :=
  Resolves {| ok := false; status := n; json := JsonValue None |}.

Definition no_tags : body :=
  {| tags := Some []; changes := None; changeRecords := None |}.

Definition test_context : context :=
  {| owner := js "test-owner"; repo := js "test-repo";
     pull_request := Some (Some 123%N) |}.

Definition token_env (fromVersion toVersion : jsstring) : environment :=
  {| GITHUB_TOKEN := Some (js "test-token");
     DEPENDENCY_NAMES := Some (js "drupal/token");
     PREVIOUS_VERSION := Some fromVersion;
     NEW_VERSION := Some toVersion |}.

Definition token_pkg (fromVersion toVersion : jsstring) : package :=
  {| pkg_name := js "drupal/token"; project := js "token";
     from := fromVersion; to := toVersion |}.

Definition one_bug : body :=
  {| tags := None;
     changes :=
       Some [ {| group_type := Text (js "Bug");
                 group_changes :=
                   Some [ {| nid := Text (js "12345");
                             link := Text (js "https://www.drupal.org/i/12345");
                             summary := js "#12345: Fixed a bug" |} ] |} ];
     changeRecords := Some [] |}.

(** A pull request whose body already holds the heading. *)
Definition marked_world : world :=
  {| env := token_env (js "1.0.0") (js "1.1.0");
     network := fun k _ => match k with 0 => response_ok no_tags | _ => response_ok one_bug end;
     github_context := test_context;
     pulls_get := inr (Some (js "Bumps token. ## Drupal Release Notes"));
     pulls_update := None |}.

(** A pull request without body, one package with one change. *)
Definition null_body_world : world :=
  {| env := token_env (js "1.0.0") (js "1.1.0");
     network := fun k _ => match k with 0 => response_ok no_tags | _ => response_ok one_bug end;
     github_context := test_context;
     pulls_get := inr None;
     pulls_update := None |}.

(** Every request is answered with status 500. *)
Definition failing_world : world :=
  {| env := grouped_env;
     network := fun _ _ => response_status 500;
     github_context := test_context;
     pulls_get := inr (Some (js "Bumps core and token."));
     pulls_update := None |}.

(** A project with legacy tags. *)
Definition legacy_tags : body :=
  {| tags := Some [ {| name := js "8.x-1.38" |}; {| name := js "8.x-1.40" |} ];
     changes := None; changeRecords := None |}.

(** One package of that project, updated from 1.38.0 to 1.40.0. *)
Definition legacy_world : world :=
  {| env := token_env (js "1.38.0") (js "1.40.0");
     network := fun k _ => match k with 0 => response_ok legacy_tags | _ => response_ok one_bug end;
     github_context := test_context;
     pulls_get := inr None;
     pulls_update := None |}.

(** A response whose only group has no change. *)
Definition empty_group : body :=
  {| tags := None;
     changes := Some [ {| group_type := Text (js "Bug"); group_changes := Some [] |} ];
     changeRecords := Some [] |}.

(** One package whose changelog is that response. *)
Definition empty_group_world : world :=
  {| env := token_env (js "1.0.0") (js "1.1.0");
     network := fun k _ => match k with 0 => response_ok no_tags | _ => response_ok empty_group end;
     github_context := test_context;
     pulls_get := inr None;
     pulls_update := None |}.

(** The run of the repository's test for a [null] nid: one package,
    no tags, one group with an entry without nid and one with. *)
Definition null_nid_data : body :=
  {| tags := None;
     changes :=
       Some [ {| group_type := Text (js "Misc");
                 group_changes :=
                   Some [ {| nid := Null; link := Text [];
                             summary := js "Update .cspell-project-words.txt file" |};
                          {| nid := Text (js "12345");
                             link := Text (js "https://www.drupal.org/i/12345");
                             summary := js "#12345: Fixed a bug" |} ] |} ];
     changeRecords := Some [] |}.

Definition null_nid_world : world :=
  {| env := {| GITHUB_TOKEN := Some (js "test-token");
               DEPENDENCY_NAMES := Some (js "drupal/core");
               PREVIOUS_VERSION := Some (js "10.0.0");
               NEW_VERSION := Some (js "10.1.0") |};
     network := fun k _ => match k with 0 => response_ok no_tags | _ => response_ok null_nid_data end;
     github_context := test_context;
     pulls_get := inr (Some (js "Existing PR body"));
     pulls_update := None |}.

(** The URLs requested with [fetch], in order. *)
Fixpoint fetched_urls (t : list event) : list jsstring :=
  match t with
  | [] => []
  | Fetch url :: t' => url :: fetched_urls t'
  | _ :: t' => fetched_urls t'
  end.

(** The run of the repository's test for a single version pair shared
    by two packages. *)
Definition shared_pair_world : world :=
  {| env := {| GITHUB_TOKEN := Some (js "test-token");
               DEPENDENCY_NAMES := Some (js "drupal/core,drupal/token");
               PREVIOUS_VERSION := Some (js "10.0.0");
               NEW_VERSION := Some (js "10.1.0") |};
     network := fun k _ => match k with
                           | 0 | 2 => response_ok no_tags
                           | _ => response_ok one_bug
                           end;
     github_context := test_context;
     pulls_get := inr (Some (js "Existing PR body"));
     pulls_update := None |}.

(** All the changes of a response, over its groups. *)
Definition all_changes (b : body) : list change :=
  List.concat
    (map (fun g => match group_changes g with Some l => l | None => [] end)
         (match changes b with Some l => l | None => [] end)).

(* ================================================================= *)
(** ** Vocabulary of the further properties *)

(** The legacy tag of a version: [8.x-MAJOR.MINOR]. *)
Definition legacy_tag (major minor : jsstring) : jsstring :=
  js "8.x-" ++ major ++ js "." ++ minor.

(** [l.join(sep)] for a separator of one code unit. *)
Fixpoint join (sep : N) (l : list jsstring) : jsstring :=
  match l with
  | [] => []
  | [piece] => piece
  | piece :: rest => piece ++ sep :: join sep rest
  end.

(** The package made of a name and the two versions at its index. *)
Definition package_of (entry : jsstring * (jsstring * jsstring)) : package :=
  {| pkg_name := fst entry;
     project := replace (js "drupal/") [] (fst entry);
     from := fst (snd entry);
     to := snd (snd entry) |}.

(** The name carries the [drupal/] prefix. *)
Definition is_drupal (entry : jsstring * (jsstring * jsstring)) : bool :=
  startsWith (js "drupal/") (fst entry).

(** Two states agree on the events that [proj] selects: the second
    trace shows no such event that the first does not. *)
Definition same_on {X} (proj : event -> list X) (s s' : state) : Prop :=
  flat_map proj (trace s') = flat_map proj (trace s).

(** The events that leave the action for the pull request or report
    the run as failed. *)
Definition outward (e : event) : list event :=
  match e with
  | SetFailed _ | PullsGet _ _ _ | PullsUpdate _ _ _ _ => [e]
  | _ => []
  end.

(** The URL of a request. *)
Definition request (e : event) : list jsstring :=
  match e with
  | Fetch url => [url]
  | _ => []
  end.

(** The two requests made for a package when the project has the tags
    [tags]. *)
Definition package_requests (pkg : package) (tags : list jsstring) : list jsstring :=
  [ project_url (project pkg);
    apiUrl pkg (mapVersionToTag (from pkg) tags) (mapVersionToTag (to pkg) tags) ].

(** What is logged after the loop when no package had release notes
    (lines 175-177). *)
Definition no_notes_log (w : world) : list event :=
  if hasReleaseNotes (after_loop w) then []
  else [Info (js "No release notes were retrieved from the API.")].

(** A request that does not succeed: it rejects or its status is not
    a success. *)
Definition failed (r : fetch_result) : Prop :=
  match r with
  | Rejects _ => True
  | Resolves r => ok r = false
  end.

(** A world without token. *)
Definition no_token_world : world :=
  {| env := {| GITHUB_TOKEN := None;
               DEPENDENCY_NAMES := Some (js "drupal/core");
               PREVIOUS_VERSION := Some (js "10.0.0");
               NEW_VERSION := Some (js "10.1.0") |};
     network := fun _ _ => response_ok one_bug;
     github_context := test_context;
     pulls_get := inr None;
     pulls_update := None |}.

(** A world whose update has no [drupal/] package. *)
Definition no_drupal_world : world :=
  {| env := {| GITHUB_TOKEN := Some (js "test-token");
               DEPENDENCY_NAMES := Some (js "other/package, symfony/console");
               PREVIOUS_VERSION := Some (js "1.0.0,5.0.0");
               NEW_VERSION := Some (js "1.1.0,5.1.0") |};
     network := fun _ _ => response_ok one_bug;
     github_context := test_context;
     pulls_get := inr None;
     pulls_update := None |}.

(** A run outside a pull request. *)
Definition no_pull_request_world : world :=
  {| env := token_env (js "1.0.0") (js "1.1.0");
     network := fun k _ => match k with 0 => response_ok no_tags | _ => response_ok one_bug end;
     github_context := {| owner := js "test-owner"; repo := js "test-repo";
                          pull_request := None |};
     pulls_get := inr None;
     pulls_update := None |}.

(** A pull request that cannot be read. *)
Definition unreadable_world : world :=
  {| env := token_env (js "1.0.0") (js "1.1.0");
     network := fun k _ => match k with 0 => response_ok no_tags | _ => response_ok one_bug end;
     github_context := test_context;
     pulls_get := inl (js "Not Found");
     pulls_update := None |}.

(** A pull request with a body, whose update is refused. *)
Definition refused_world : world :=
  {| env := token_env (js "1.0.0") (js "1.1.0");
     network := fun k _ => match k with 0 => response_ok no_tags | _ => response_ok one_bug end;
     github_context := test_context;
     pulls_get := inr (Some (js "Existing PR body"));
     pulls_update := Some (js "Resource not accessible by integration") |}.

(** The text of one group of changes: nothing for a group without
    change, else the heading of the type, one line per change and an
    empty line. *)
Definition group_text (g : typeGroup) : jsstring :=
  match group_changes g with
  | Some (c :: l) =>
      js "#### "
        ++ (if field_truthy (group_type g) then to_string (group_type g) else js "Misc")
        ++ nl ++ nl ++ List.concat (map entry_line (c :: l)) ++ nl
  | _ => []
  end.

(** The line of one change record: nothing when it has no URL or no
    title under either name. *)
Definition record_text (r : changeRecord) : jsstring :=
  let recordUrl := field_or (record_url r) (record_link r) in
  let recordTitle := field_or (record_title r) (record_summary r) in
  if field_truthy recordUrl && field_truthy recordTitle
  then js "* [" ++ to_string recordTitle ++ js "](" ++ to_string recordUrl
         ++ js ")" ++ nl
  else [].

(** The text of the change records of a response. *)
Definition records_text (data : option body) : jsstring :=
  match data_changeRecords data with
  | [] => []
  | recs => js "#### Change Records" ++ nl ++ nl
              ++ List.concat (map record_text recs) ++ nl
  end.

(** The whole section of a package with release notes. *)
Definition notes_text (pkg : package) (mappedFrom mappedTo : jsstring)
           (data : option body) (groups : list typeGroup) : jsstring :=
  heading pkg ++ version_line pkg mappedTo
    ++ compare_link pkg mappedFrom mappedTo ++ nl ++ nl
    ++ List.concat (map group_text groups) ++ records_text data ++ nl.

(** A response with two groups, one of them without change, and two
    change records, one of them without title. *)
Definition two_groups : body :=
  {| tags := None;
     changes :=
       Some [ {| group_type := Text (js "Bug");
                 group_changes :=
                   Some [ {| nid := Text (js "1");
                             link := Text (js "https://www.drupal.org/i/1");
                             summary := js "#1 by alice, bob: First" |};
                          {| nid := Text (js "2");
                             link := Text (js "https://www.drupal.org/i/2");
                             summary := js "#2: Second" |} ] |};
              {| group_type := Undefined; group_changes := Some [] |} ];
     changeRecords :=
       Some [ {| record_url := Text (js "https://www.drupal.org/node/3");
                 record_link := Undefined;
                 record_title := Text (js "A change"); record_summary := Undefined |};
              {| record_url := Text (js "https://www.drupal.org/node/4");
                 record_link := Undefined;
                 record_title := Null; record_summary := Undefined |} ] |}.

(** A world in which every request is answered with that response. *)
Definition two_groups_world : world :=
  {| env := token_env (js "1.0.0") (js "1.1.0");
     network := fun _ _ => response_ok two_groups;
     github_context := test_context;
     pulls_get := inr None;
     pulls_update := None |}.

(** A change record that cannot be rendered: no URL or no title,
    under either name. *)
Definition unusable (r : changeRecord) : Prop :=
  field_truthy (field_or (record_url r) (record_link r))
  && field_truthy (field_or (record_title r) (record_summary r)) = false.

(** A response with a change and one change record without title. *)
Definition untitled_record : body :=
  {| tags := None;
     changes := changes one_bug;
     changeRecords :=
       Some [ {| record_url := Text (js "https://www.drupal.org/node/4");
                 record_link := Undefined;
                 record_title := Null; record_summary := Undefined |} ] |}.

(** The tag request of the first package fails with status 503; the
    changelog request is answered. *)
Definition no_tags_service_world : world :=
  {| env := token_env (js "1.38.0") (js "1.40.0");
     network := fun k _ => match k with 0 => response_status 503 | _ => response_ok one_bug end;
     github_context := test_context;
     pulls_get := inr None;
     pulls_update := None |}.

(** [hasReleaseNotes], once set, is still set. *)
Definition stays_set (s s' : state) : Prop :=
  hasReleaseNotes s = true -> hasReleaseNotes s' = true.

(* ================================================================= *)
(** * Properties *)

(** ** Strings *)

Lemma eqb_eq (a b : jsstring) : eqb a b = true <-> a = b.
Proof.
  revert b; induction a as [|x a IH]; intros [|y b]; simpl; split;
    intros H; try discriminate; try reflexivity.
  - apply andb_true_iff in H as [Hx Hab].
    apply N.eqb_eq in Hx. apply IH in Hab. congruence.
  - injection H as -> ->.
    apply andb_true_iff; split; [apply N.eqb_refl | now apply IH].
Qed.

Lemma eqb_refl (a : jsstring) : eqb a a = true.
Proof. now apply eqb_eq. Qed.

Lemma array_includes_In (l : list jsstring) (x : jsstring) :
  array_includes l x = true <-> In x l.
Proof.
  unfold array_includes. rewrite existsb_exists. split.
  - intros (y & Hy & E). apply eqb_eq in E. now subst.
  - intros H. exists x. split; [assumption | apply eqb_refl].
Qed.

Lemma array_includes_not_In (l : list jsstring) (x : jsstring) :
  array_includes l x = false <-> ~ In x l.
Proof.
  rewrite <- array_includes_In. destruct (array_includes l x); split;
    intros H; congruence.
Qed.

Lemma startsWith_app (p s : jsstring) : startsWith p (p ++ s) = true.
Proof.
  induction p as [|x p IH]; simpl; [reflexivity|].
  now rewrite N.eqb_refl.
Qed.

Lemma includes_startsWith (p s : jsstring) :
  startsWith p s = true -> includes p s = true.
Proof. intros H. destruct s; simpl; rewrite H; reflexivity. Qed.

Lemma includes_app (p a b : jsstring) : includes p (a ++ p ++ b) = true.
Proof.
  induction a as [|x a IH].
  - cbn [app]. apply includes_startsWith, startsWith_app.
  - cbn [app includes]. rewrite IH. apply orb_true_r.
Qed.

Lemma split_not_nil (sep : N) (s : jsstring) : split sep s <> [].
Proof.
  destruct s as [|c s]; simpl; [discriminate|].
  destruct (N.eqb c sep); [discriminate|].
  destruct (split sep s); discriminate.
Qed.

Lemma firstn_consumed (d rest : jsstring) :
  firstn (List.length (d ++ rest) - List.length rest) (d ++ rest) = d.
Proof.
  rewrite length_app.
  replace (List.length d + List.length rest - List.length rest)
    with (List.length d + 0) by lia.
  rewrite firstn_app_2. simpl. apply app_nil_r.
Qed.

(** ** The matcher on runs of a class *)

Section Runs.
Variable R : Type.
Variables (p : N -> bool) (k : jsstring -> option R).

Lemma star_run (d rest : jsstring) (r : R) :
  all p d -> stops p rest -> k rest = Some r ->
  Regex.star p (d ++ rest) k = Some r.
Proof.
  intros Hd Hrest Hk. induction Hd as [|c d Hc _ IH]; simpl.
  - destruct rest as [|c rest]; [assumption|].
    simpl in Hrest |- *. now rewrite Hrest.
  - now rewrite Hc, IH.
Qed.

Lemma plus_run (d rest : jsstring) (r : R) :
  all p d -> d <> [] -> stops p rest -> k rest = Some r ->
  Regex.plus p (d ++ rest) k = Some r.
Proof.
  intros Hd Hne Hrest Hk. destruct d as [|c d]; [congruence|].
  inversion Hd as [|? ? Hc Hd']; subst. simpl. rewrite Hc.
  now apply star_run.
Qed.

End Runs.

(** ** The version mapper *)

Lemma semver_match (major minor patch : jsstring) :
  digits major -> digits minor -> digits patch ->
  Regex.match_ semver_re (semver major minor patch)
  = Some [major; minor; patch].
Proof.
  intros [HM HMn] [Hm Hmn] [Hp Hpn].
  unfold Regex.match_, semver_re, semver.
  cbn [Regex.seqs]. cbn [Regex.exec].
  apply plus_run; try assumption; [reflexivity|].
  rewrite firstn_consumed. cbn.
  apply plus_run; try assumption; [reflexivity|].
  rewrite firstn_consumed. cbn.
  rewrite <- (app_nil_r patch) at 1.
  apply plus_run; try assumption; [exact I|].
  rewrite <- (app_nil_r patch) at 1 2.
  rewrite (firstn_consumed patch []). reflexivity.
Qed.

(** ** The issue-id prefix of a summary *)

(** Literals of the source, evaluated to their code units. *)
Ltac js_eval :=
  repeat match goal with
         | |- context [js ?s] =>
             let v := eval vm_compute in (js s) in change (js s) with v
         end.

Lemma star_space_tail (rest : jsstring) :
  stops is_space rest ->
  Regex.star is_space (32%N :: rest) (fun s => Some s) = Some rest.
Proof.
  intros H. change (32%N :: rest) with ([32%N] ++ rest).
  apply star_run; [repeat constructor | assumption | reflexivity].
Qed.

Lemma stops_app (p : N -> bool) (a b : jsstring) :
  a <> [] -> stops p a -> stops p (a ++ b).
Proof. destruct a; [congruence | trivial]. Qed.

Lemma strip_issue_prefix (d b rest : jsstring) :
  digits d -> by_clause b -> stops is_space rest ->
  Regex.replace_empty issue_prefix_re (js "#" ++ d ++ b ++ js ": " ++ rest)
  = rest.
Proof.
  intros [Hd Hdn] Hb Hrest.
  unfold Regex.replace_empty, issue_prefix_re.
  match goal with
  | |- match ?X with _ => _ end = _ => enough (X = Some rest) as -> by reflexivity
  end.
  js_eval. cbn [Regex.seqs]. cbn [Regex.exec app].
  change (35 =? hash)%N with true. cbv iota.
  destruct Hb as [-> | (names & -> & Hn & Hcolon & Hname)].
  - apply plus_run; [assumption .. | reflexivity | ].
    cbn. now apply star_space_tail.
  - js_eval.
    apply plus_run; [assumption .. | reflexivity | ].
    cbn -[Regex.plus Regex.star].
    change (Regex.plus is_space (32%N :: 98%N :: ?t) ?k)
      with (k (98%N :: t)).
    cbn -[Regex.plus Regex.star].
    match goal with
    | |- match ?X with _ => _ end = _ => enough (X = Some rest) as -> by reflexivity
    end.
    change (32%N :: names ++ ?t) with ([32%N] ++ names ++ t).
    apply plus_run;
      [repeat constructor | discriminate | now apply stops_app | ].
    apply plus_run; [assumption .. | reflexivity | ].
    cbn -[Regex.star]. now apply star_space_tail.
Qed.

(** ** Claims about the version mapper *)

(** C4: a version that is itself in the tag list is returned unchanged,
    whatever else the list holds (the exact match is tested first). *)
Theorem mapVersionToTag_exact (v : jsstring) (T : list jsstring) :
  In v T -> mapVersionToTag v T = v.
Proof.
  intros H. unfold mapVersionToTag.
  apply array_includes_In in H. now rewrite H.
Qed.

Lemma mapVersionToTag_exact_witness :
  mapVersionToTag (js "1.38.0") [js "8.x-1.38"; js "1.38.0"] = js "1.38.0".
Proof.
  apply (mapVersionToTag_exact (js "1.38.0") [js "8.x-1.38"; js "1.38.0"]).
  simpl. right. left. reflexivity.
Defined.

(** C3: for a version MAJOR.MINOR.PATCH that is not in the tag list,
    the result is the legacy tag 8.x-MAJOR.MINOR when the list holds it
    and the version itself otherwise. *)
Theorem mapVersionToTag_semver (major minor patch : jsstring) (T : list jsstring) :
  digits major -> digits minor -> digits patch ->
  ~ In (semver major minor patch) T ->
  (In (js "8.x-" ++ major ++ js "." ++ minor) T ->
   mapVersionToTag (semver major minor patch) T
   = js "8.x-" ++ major ++ js "." ++ minor)
  /\
  (~ In (js "8.x-" ++ major ++ js "." ++ minor) T ->
   mapVersionToTag (semver major minor patch) T = semver major minor patch).
Proof.
  intros HM Hm Hp Hv. apply array_includes_not_In in Hv.
  unfold mapVersionToTag. rewrite Hv, semver_match by assumption.
  split; intros H.
  - apply array_includes_In in H. now rewrite H.
  - apply array_includes_not_In in H. now rewrite H.
Qed.

Lemma digits_literal (d : jsstring) :
  forallb is_digit d = true -> d <> [] -> digits d.
Proof.
  intros H Hn. split; [|assumption].
  apply Forall_forall. now apply forallb_forall.
Qed.

Lemma mapVersionToTag_semver_witness :
  mapVersionToTag (semver (js "1") (js "38") (js "0")) [js "8.x-1.37"; js "8.x-1.38"]
  = js "8.x-1.38".
Proof.
  apply (@mapVersionToTag_semver (js "1") (js "38") (js "0")
                                 [js "8.x-1.37"; js "8.x-1.38"]).
  - apply digits_literal; [reflexivity | discriminate].
  - apply digits_literal; [reflexivity | discriminate].
  - apply digits_literal; [reflexivity | discriminate].
  - simpl. intros [H | [H | []]]; discriminate H.
  - simpl. right. left. reflexivity.
Defined.

(** ** Claims about the rendered entry line *)

(** C1, evaluated on the code: an entry whose [nid] is [null] is
    rendered with a link whose text is the literal [#null], and the
    summary does not stand alone; in the run of the repository's test
    for this case the body written to the pull request holds [[#null]]
    and does not hold the line the test expects. *)
Theorem entry_line_null_nid :
  entry_line {| nid := Null; link := Text [];
                summary := js "Update .cspell-project-words.txt file" |}
  = js "* [#null](): Update .cspell-project-words.txt file" ++ nl
  /\
  exists newBody,
    update_calls (run_trace null_nid_world) = [newBody]
    /\ includes (js "[#null]") newBody = true
    /\ includes (js "* Update .cspell-project-words.txt file") newBody = false.
Proof.
  split; [vm_compute; reflexivity|].
  eexists. split; [vm_compute; reflexivity|].
  split; vm_compute; reflexivity.
Qed.

(** C7: a summary that starts with [#<digits>], an optional
    [ by <names>] and [: ] is displayed without that prefix, after the
    link built from [nid]; for the summary [#12345: Fixed a bug] with
    nid [12345] the line is [* [#12345](link): Fixed a bug]. *)
Theorem entry_line_strips_id (d b rest : jsstring) (l : field) :
  digits d -> by_clause b -> stops is_space rest ->
  entry_line {| nid := Text d; link := l;
                summary := js "#" ++ d ++ b ++ js ": " ++ rest |}
  = js "* [#" ++ d ++ js "](" ++ to_string l ++ js ")"
      ++ (if truthy rest then js ": " ++ rest else []) ++ nl.
Proof.
  intros Hd Hb Hrest. unfold entry_line. cbn [nid link summary to_string].
  rewrite strip_issue_prefix by assumption.
  js_eval. cbn [app]. reflexivity.
Qed.

Lemma entry_line_strips_id_witness :
  entry_line {| nid := Text (js "12345");
                link := Text (js "https://www.drupal.org/i/12345");
                summary := js "#12345: Fixed a bug" |}
  = js "* [#12345](https://www.drupal.org/i/12345): Fixed a bug" ++ nl.
Proof.
  apply (@entry_line_strips_id (js "12345") [] (js "Fixed a bug")
                               (Text (js "https://www.drupal.org/i/12345"))).
  - apply digits_literal; [reflexivity | discriminate].
  - left. reflexivity.
  - reflexivity.
Defined.

(** ** Claims about the package filter *)

Lemma index_or_first_fallback (versions : list jsstring) (i : nat) :
  List.length versions <= i -> index_or_first versions i = hd [] versions.
Proof.
  intros H. unfold index_or_first.
  apply nth_error_None in H. now rewrite H.
Qed.

Lemma drupalPackages_from_fallback (packages fromVersions toVersions : list jsstring) :
  forall i,
    (List.length fromVersions <= i ->
     Forall (fun pkg => from pkg = hd [] fromVersions)
            (drupalPackages_from i packages fromVersions toVersions))
    /\
    (List.length toVersions <= i ->
     Forall (fun pkg => to pkg = hd [] toVersions)
            (drupalPackages_from i packages fromVersions toVersions)).
Proof.
  induction packages as [|p rest IH]; intros i; cbn [drupalPackages_from].
  - split; constructor.
  - destruct (IH (S i)) as [IHf IHt].
    destruct (startsWith (js "drupal/") p); split; intros H;
      try constructor; try (apply IHf; lia); try (apply IHt; lia);
      cbn [from to]; now apply index_or_first_fallback.
Qed.

(** C6: the grouped update keeps exactly [drupal/core] and
    [drupal/token], each with the versions at its own index; and a
    package whose index lies beyond a version list takes the first
    element of that list. *)
Theorem drupalPackages_grouped :
  drupalPackages grouped_env
  = [ {| pkg_name := js "drupal/core"; project := js "core";
         from := js "10.0.0"; to := js "10.1.0" |};
      {| pkg_name := js "drupal/token"; project := js "token";
         from := js "1.0.0"; to := js "1.1.0" |} ]
  /\
  forall (packages fromVersions toVersions : list jsstring) (i : nat),
    (List.length fromVersions <= i ->
     Forall (fun pkg => from pkg = hd [] fromVersions)
            (drupalPackages_from i packages fromVersions toVersions))
    /\
    (List.length toVersions <= i ->
     Forall (fun pkg => to pkg = hd [] toVersions)
            (drupalPackages_from i packages fromVersions toVersions)).
Proof.
  split.
  - vm_compute. reflexivity.
  - intros. apply drupalPackages_from_fallback.
Qed.

(** Two packages sharing one version pair: the second one, at index 1,
    takes the first pair. *)
Lemma drupalPackages_grouped_witness :
  Forall (fun pkg => from pkg = js "10.0.0")
         (drupalPackages_from 1 [js "drupal/token"] [js "10.0.0"] [js "10.1.0"])
  /\
  drupalPackages
    {| GITHUB_TOKEN := None;
       DEPENDENCY_NAMES := Some (js "drupal/core,drupal/token");
       PREVIOUS_VERSION := Some (js "10.0.0");
       NEW_VERSION := Some (js "10.1.0") |}
  = [ {| pkg_name := js "drupal/core"; project := js "core";
         from := js "10.0.0"; to := js "10.1.0" |};
      {| pkg_name := js "drupal/token"; project := js "token";
         from := js "10.0.0"; to := js "10.1.0" |} ].
Proof.
  split.
  - apply (proj1 (proj2 drupalPackages_grouped
                        [js "drupal/token"] [js "10.0.0"] [js "10.1.0"] 1)).
    simpl. lia.
  - vm_compute. reflexivity.
Defined.

(** The requests of the run with a shared version pair, as the
    repository's test expects them. *)
Example shared_pair_requests :
  fetched_urls (run_trace shared_pair_world)
  = [ js "https://api.drupal-mrn.dev/project?project=core";
      js "https://api.drupal-mrn.dev/changelog?project=core&from=10.0.0&to=10.1.0&format=json";
      js "https://api.drupal-mrn.dev/project?project=token";
      js "https://api.drupal-mrn.dev/changelog?project=token&from=10.0.0&to=10.1.0&format=json" ].
Proof. vm_compute. reflexivity. Qed.

(** ** Claims about the tag fetcher *)

(** C5: [fetchProjectTags] always completes normally; it gives the
    empty array when the status is not a success, when [fetch] or
    [json()] rejects, and when the body has no [tags] member. *)
Theorem fetchProjectTags_never_throws (w : world) (project : jsstring) (s : state) :
  (exists tags, fst (fetchProjectTags w project s) = Normal tags)
  /\
  (forall r, network w (calls s) (project_url project) = Resolves r ->
             ok r = false ->
             fst (fetchProjectTags w project s) = Normal [])
  /\
  (forall e, network w (calls s) (project_url project) = Rejects e ->
             fst (fetchProjectTags w project s) = Normal [])
  /\
  (forall r e, network w (calls s) (project_url project) = Resolves r ->
               ok r = true -> json r = JsonRejects e ->
               fst (fetchProjectTags w project s) = Normal [])
  /\
  (forall r d, network w (calls s) (project_url project) = Resolves r ->
               ok r = true -> json r = JsonValue (Some d) -> tags d = None ->
               fst (fetchProjectTags w project s) = Normal []).
Proof.
  unfold fetchProjectTags, try_catch, bind, fetch, response_json, project_url.
  repeat split.
  - destruct (network w (calls s) _) as [e | r]; simpl; [eauto|].
    destruct (ok r); simpl; [|eauto].
    destruct (json r) as [e | [d|]]; simpl; [eauto | | eauto].
    destruct (tags d); simpl; eauto.
  - intros r -> Hok. simpl. rewrite Hok. reflexivity.
  - intros e ->. reflexivity.
  - intros r e -> Hok Hj. simpl. rewrite Hok. simpl. rewrite Hj. reflexivity.
  - intros r d -> Hok Hj Ht. simpl. rewrite Hok. simpl. rewrite Hj. simpl.
    rewrite Ht. reflexivity.
Qed.

(** ** Reasoning about computations *)

Section Preserved.
(** A relation between the state before and the state after that is
    a preorder is kept by every way of composing computations. *)
Variable R : state -> state -> Prop.
Hypothesis R_refl : forall s, R s s.
Hypothesis R_trans : forall a b c, R a b -> R b c -> R a c.

Lemma preserves_ret A (a : A) : preserves R (ret a).
Proof. intros s. apply R_refl. Qed.

Lemma preserves_throw A (e : jsstring) : preserves R (@throw A e).
Proof. intros s. apply R_refl. Qed.

Lemma preserves_bind A B (m : M A) (f : A -> M B) :
  preserves R m -> (forall a, preserves R (f a)) -> preserves R (bind m f).
Proof.
  intros Hm Hf s. unfold bind. specialize (Hm s).
  destruct (m s) as [[a | e] s']; simpl in *; [|assumption].
  eapply R_trans; [eassumption | apply Hf].
Qed.

Lemma preserves_try_catch A (m : M A) (h : jsstring -> M A) :
  preserves R m -> (forall e, preserves R (h e)) -> preserves R (try_catch m h).
Proof.
  intros Hm Hh s. unfold try_catch. specialize (Hm s).
  destruct (m s) as [[a | e] s']; simpl in *; [assumption|].
  eapply R_trans; [eassumption | apply Hh].
Qed.

Lemma preserves_for_of A (l : list A) (body : A -> M unit) :
  (forall x, preserves R (body x)) -> preserves R (for_of l body).
Proof.
  intros Hb. induction l as [|x l IH]; simpl.
  - apply preserves_ret.
  - apply preserves_bind; auto.
Qed.

End Preserved.

Lemma never_throws_ret A (a : A) : never_throws (ret a).
Proof. intros s. now exists a. Qed.

Lemma never_throws_bind A B (m : M A) (f : A -> M B) :
  never_throws m -> (forall a, never_throws (f a)) -> never_throws (bind m f).
Proof.
  intros Hm Hf s. unfold bind. destruct (Hm s) as [a Ha].
  destruct (m s) as [[a' | e] s']; simpl in Ha; [|discriminate].
  apply Hf.
Qed.

Lemma never_throws_try_catch A (m : M A) (h : jsstring -> M A) :
  (forall e, never_throws (h e)) -> never_throws (try_catch m h).
Proof.
  intros Hh s. unfold try_catch.
  destruct (m s) as [[a | e] s']; simpl; [now exists a | apply Hh].
Qed.

Lemma never_throws_for_of A (l : list A) (body : A -> M unit) :
  (forall x, never_throws (body x)) -> never_throws (for_of l body).
Proof.
  intros Hb. induction l as [|x l IH]; simpl.
  - apply never_throws_ret.
  - apply never_throws_bind; auto.
Qed.

Lemma never_throws_emit (e : event) : never_throws (emit e).
Proof. intros s. now exists tt. Qed.

Lemma never_throws_append (t : jsstring) : never_throws (append t).
Proof. intros s. now exists tt. Qed.

Lemma never_throws_unit (m : M unit) (s : state) :
  never_throws m -> m s = (Normal tt, snd (m s)).
Proof.
  intros H. destruct (H s) as [[] Ha].
  destruct (m s) as [c s']; simpl in *. now subst.
Qed.

(** *** What a package may do to the state: text is only appended to
    the section and no update call is made. *)

Lemma update_calls_app (t u : list event) :
  update_calls (t ++ u) = update_calls t ++ update_calls u.
Proof.
  induction t as [|e t IH]; simpl; [reflexivity|].
  destruct e; simpl; now rewrite IH.
Qed.

Lemma quiet_refl (s : state) : quiet s s.
Proof. split; [exists []; now rewrite app_nil_r | reflexivity]. Qed.

Lemma quiet_trans (a b c : state) : quiet a b -> quiet b c -> quiet a c.
Proof.
  intros [[t1 H1] U1] [[t2 H2] U2]. split.
  - exists (t1 ++ t2). now rewrite H2, H1, app_assoc.
  - congruence.
Qed.

Lemma quiet_emit (e : event) : is_update e = false -> preserves quiet (emit e).
Proof.
  intros He s. split; simpl.
  - exists []. now rewrite app_nil_r.
  - rewrite update_calls_app. destruct e; simpl; try apply app_nil_r.
    discriminate.
Qed.

Lemma quiet_append (t : jsstring) : preserves quiet (append t).
Proof. intros s. split; simpl; [now exists t | reflexivity]. Qed.

Lemma quiet_set_hasReleaseNotes (b : bool) :
  preserves quiet (set_hasReleaseNotes b).
Proof.
  intros s. split; simpl; [exists []; now rewrite app_nil_r | reflexivity].
Qed.

Lemma quiet_fetch (w : world) (url : jsstring) : preserves quiet (fetch w url).
Proof.
  intros s. unfold fetch.
  destruct (network w (calls s) url); split; simpl;
    try (exists []; now rewrite app_nil_r);
    rewrite update_calls_app; apply app_nil_r.
Qed.

Lemma quiet_response_json (r : response) : preserves quiet (response_json r).
Proof.
  intros s. unfold response_json.
  destruct (json r); apply quiet_refl.
Qed.

Lemma quiet_ret A (a : A) : preserves quiet (ret a).
Proof. apply preserves_ret, quiet_refl. Qed.

Lemma quiet_throw A (e : jsstring) : preserves quiet (@throw A e).
Proof. apply preserves_throw, quiet_refl. Qed.

Lemma quiet_bind A B (m : M A) (f : A -> M B) :
  preserves quiet m -> (forall a, preserves quiet (f a)) ->
  preserves quiet (bind m f).
Proof. apply preserves_bind, quiet_trans. Qed.

Lemma quiet_try_catch A (m : M A) (h : jsstring -> M A) :
  preserves quiet m -> (forall e, preserves quiet (h e)) ->
  preserves quiet (try_catch m h).
Proof. apply preserves_try_catch, quiet_trans. Qed.

Lemma quiet_for_of A (l : list A) (body : A -> M unit) :
  (forall x, preserves quiet (body x)) -> preserves quiet (for_of l body).
Proof. apply preserves_for_of; [apply quiet_refl | apply quiet_trans]. Qed.

(** Decomposes a goal [preserves quiet m] along the structure of [m]. *)
Ltac quiet :=
  repeat first
    [ apply quiet_bind; [ | intro]
    | apply quiet_try_catch; [ | intro]
    | apply quiet_for_of; intro
    | apply quiet_ret
    | apply quiet_throw
    | apply quiet_append
    | apply quiet_set_hasReleaseNotes
    | apply quiet_fetch
    | apply quiet_response_json
    | apply quiet_emit; reflexivity
    | match goal with
      | |- preserves _ (if ?b then _ else _) => destruct b
      | |- preserves _ (match ?x with _ => _ end) => destruct x
      end ].

Lemma quiet_fetchProjectTags (w : world) (project : jsstring) :
  preserves quiet (fetchProjectTags w project).
Proof. unfold fetchProjectTags, core_warning. quiet. Qed.

Lemma quiet_render_group (g : typeGroup) : preserves quiet (render_group g).
Proof. unfold render_group. quiet. Qed.

Lemma quiet_render_record (r : changeRecord) : preserves quiet (render_record r).
Proof. unfold render_record. quiet. Qed.

Lemma quiet_process_package (w : world) (pkg : package) :
  preserves quiet (process_package w pkg).
Proof.
  unfold process_package, fetch_changelog, render_notes, render_no_notes,
    core_info, core_warning, core_error.
  quiet; try apply quiet_fetchProjectTags;
    try apply quiet_render_group; try apply quiet_render_record.
Qed.

Lemma never_throws_fetchProjectTags (w : world) (project : jsstring) :
  never_throws (fetchProjectTags w project).
Proof.
  apply never_throws_try_catch. intros e.
  apply never_throws_bind; [apply never_throws_emit | intros; apply never_throws_ret].
Qed.

Lemma never_throws_process_package (w : world) (pkg : package) :
  never_throws (process_package w pkg).
Proof.
  unfold process_package.
  apply never_throws_bind; [apply never_throws_emit | intros _].
  apply never_throws_bind; [apply never_throws_fetchProjectTags | intros tags].
  apply never_throws_bind.
  - destruct (_ || _); [apply never_throws_emit | apply never_throws_ret].
  - intros _. unfold fetch_changelog.
    apply never_throws_try_catch. intros e.
    apply never_throws_bind; [apply never_throws_emit | intros _].
    apply never_throws_bind; intros; apply never_throws_append.
Qed.

(** ** The run as a whole *)

Lemma loop_completes (w : world) (pkgs : list package) (s : state) :
  for_of pkgs (process_package w) s
  = (Normal tt, snd (for_of pkgs (process_package w) s)).
Proof.
  apply never_throws_unit, never_throws_for_of.
  intros pkg. apply never_throws_process_package.
Qed.

Lemma loop_quiet (w : world) (pkgs : list package) (s : state) :
  quiet s (snd (for_of pkgs (process_package w) s)).
Proof. apply quiet_for_of. intros pkg. apply quiet_process_package. Qed.

Lemma length_eqb_0 A (l : list A) : l <> [] -> (List.length l =? 0) = false.
Proof. destruct l; [congruence | reflexivity]. Qed.

(** Takes a goal about [run w] past the token test, the test for an
    empty list of packages and the loop. *)
Ltac to_loop_end w Htoken Hne :=
  unfold run_trace, run, try_catch; rewrite Htoken; cbn [negb];
  rewrite (length_eqb_0 Hne);
  unfold bind at 1; cbn [set_section];
  unfold bind at 1; cbn [set_hasReleaseNotes];
  unfold bind at 1;
  change (for_of _ _ _)
    with (for_of (drupalPackages (env w)) (process_package w) loop_start);
  rewrite loop_completes; fold (after_loop w).

(** Unfolds the steps of [run] that follow the loop. *)
Ltac unfold_steps :=
  cbv beta iota delta [bind get_hasReleaseNotes get_section octokit_pulls_get
    octokit_pulls_update core_info core_setFailed emit ret throw].

Lemma run_reaches_update (w : world) (n : N) (b : option jsstring) :
  truthy (or_empty (GITHUB_TOKEN (env w))) = true ->
  drupalPackages (env w) <> [] ->
  pull_request_number (github_context w) = Some n ->
  pulls_get w = inr b ->
  already_present b = false ->
  update_calls (run_trace w) = [or_empty b ++ releaseNotesSection (after_loop w)].
Proof.
  intros Htoken Hpkgs Hnum Hget Hmark.
  to_loop_end w Htoken Hpkgs.
  pose proof (loop_quiet w (drupalPackages (env w)) loop_start) as [_ Hu].
  fold (after_loop w) in Hu. cbn [loop_start trace update_calls] in Hu.
  rewrite Hnum. unfold_steps.
  rewrite Hget.
  destruct (hasReleaseNotes (after_loop w)); cbn [negb];
    rewrite Hmark; destruct (pulls_update w); cbn [snd trace releaseNotesSection];
    rewrite !update_calls_app, Hu; reflexivity.
Qed.

Lemma after_loop_no_update (w : world) : update_calls (trace (after_loop w)) = [].
Proof.
  pose proof (loop_quiet w (drupalPackages (env w)) loop_start) as [_ Hu].
  exact Hu.
Qed.

Lemma after_loop_section (w : world) :
  exists text, releaseNotesSection (after_loop w) = initial_section ++ text.
Proof.
  pose proof (loop_quiet w (drupalPackages (env w)) loop_start) as [Ht _].
  exact Ht.
Qed.

(** Every run makes no update call, or exactly one, with the body of
    the pull request followed by the section the loop has built. *)
Lemma run_update_calls (w : world) :
  update_calls (run_trace w) = [] \/
  exists b, pulls_get w = inr b /\ already_present b = false /\
            update_calls (run_trace w)
            = [or_empty b ++ releaseNotesSection (after_loop w)].
Proof.
  destruct (truthy (or_empty (GITHUB_TOKEN (env w)))) eqn:Htoken.
  2:{ left. unfold run_trace, run, try_catch. rewrite Htoken. reflexivity. }
  destruct (drupalPackages (env w)) as [|p ps] eqn:Hpkgs.
  { left. unfold run_trace, run, try_catch. rewrite Htoken, Hpkgs. reflexivity. }
  assert (Hne : drupalPackages (env w) <> []) by (rewrite Hpkgs; discriminate).
  clear Hpkgs.
  destruct (pull_request_number (github_context w)) as [n|] eqn:Hnum.
  - destruct (pulls_get w) as [e | b] eqn:Hget.
    + left. to_loop_end w Htoken Hne. pose proof (after_loop_no_update w) as Hu.
      rewrite Hnum. unfold_steps.
      rewrite Hget.
      destruct (hasReleaseNotes (after_loop w)); cbn [negb snd trace];
        rewrite !update_calls_app, Hu; reflexivity.
    + destruct (already_present b) eqn:Hmark.
      * left. to_loop_end w Htoken Hne. pose proof (after_loop_no_update w) as Hu.
        rewrite Hnum. unfold_steps.
        rewrite Hget.
        destruct (hasReleaseNotes (after_loop w)); cbn [negb];
          rewrite Hmark; cbn [snd trace];
          rewrite !update_calls_app, Hu; reflexivity.
      * right. exists b. repeat split; try assumption.
        now apply run_reaches_update with (n := n).
  - left. to_loop_end w Htoken Hne. pose proof (after_loop_no_update w) as Hu.
    rewrite Hnum. unfold_steps.
    destruct (hasReleaseNotes (after_loop w)); cbn [negb snd trace];
      rewrite !update_calls_app, Hu; reflexivity.
Qed.

Lemma marked_is_present (body : jsstring) :
  includes marker body = true -> already_present (Some body) = true.
Proof.
  intros H. unfold already_present. rewrite H.
  destruct body; [discriminate H | reflexivity].
Qed.

Lemma section_has_marker (prefix text : jsstring) :
  includes marker (prefix ++ initial_section ++ text) = true.
Proof.
  change initial_section
    with ((nl ++ nl ++ js "---" ++ nl ++ nl) ++ marker ++ (nl ++ nl)).
  rewrite <- (app_assoc (nl ++ nl ++ js "---" ++ nl ++ nl)), <- (app_assoc marker).
  rewrite app_assoc.
  apply includes_app.
Qed.

Lemma never_throws_run (w : world) : never_throws (run w).
Proof.
  unfold run. apply never_throws_try_catch. intros e. apply never_throws_emit.
Qed.

(** C2: when the body of the pull request already holds the heading,
    the run makes no update call and completes; a run makes at most
    one update call, and the body it writes holds the heading, so a
    later run on that description appends nothing. *)
Theorem marker_prevents_update (w : world) :
  (forall body, pulls_get w = inr (Some body) ->
                includes marker body = true ->
                update_calls (run_trace w) = []
                /\ fst (run w initial_state) = Normal tt)
  /\
  (forall b, In b (update_calls (run_trace w)) -> includes marker b = true)
  /\
  List.length (update_calls (run_trace w)) <= 1.
Proof.
  split; [|split].
  - intros body Hget Hinc. split.
    + destruct (run_update_calls w) as [H0 | (b & Hb & Hmark & _)];
        [assumption|].
      rewrite Hget in Hb. injection Hb as <-.
      rewrite marked_is_present in Hmark by assumption. discriminate.
    + destruct (never_throws_run w initial_state) as [[] Hr]. exact Hr.
  - intros b Hin.
    destruct (run_update_calls w) as [H0 | (b0 & _ & _ & H1)].
    + rewrite H0 in Hin. destruct Hin.
    + rewrite H1 in Hin. destruct Hin as [<- | []].
      destruct (after_loop_section w) as [text ->].
      apply section_has_marker.
  - destruct (run_update_calls w) as [H0 | (b0 & _ & _ & H1)].
    + rewrite H0. simpl. lia.
    + rewrite H1. simpl. lia.
Qed.

(** C9: with a token, a [drupal/] package and a pull request whose
    body is [null], the run makes one update call; its body is the
    release-notes section itself, which starts with the fixed heading
    block: nothing stands for the missing body. *)
Theorem null_body_update (w : world) (n : N) :
  truthy (or_empty (GITHUB_TOKEN (env w))) = true ->
  drupalPackages (env w) <> [] ->
  pull_request_number (github_context w) = Some n ->
  pulls_get w = inr None ->
  update_calls (run_trace w) = [releaseNotesSection (after_loop w)]
  /\ startsWith initial_section (releaseNotesSection (after_loop w)) = true.
Proof.
  intros Htoken Hpkgs Hnum Hget. split.
  - apply (@run_reaches_update w n None); trivial.
  - destruct (after_loop_section w) as [text ->]. apply startsWith_app.
Qed.

(** ** The section of one package *)

(** Normalises concatenations of literals and variables. *)
Ltac text_eq :=
  repeat rewrite <- app_assoc; js_eval; cbn [app nl arrow];
  repeat rewrite <- app_assoc; cbn [app]; try reflexivity.

Lemma fetchProjectTags_frame (w : world) (project : jsstring) (s : state) :
  let s' := snd (fetchProjectTags w project s) in
  releaseNotesSection s' = releaseNotesSection s
  /\ hasReleaseNotes s' = hasReleaseNotes s
  /\ calls s' = S (calls s).
Proof.
  unfold fetchProjectTags, try_catch, bind, fetch, response_json, core_warning,
    emit, ret, throw.
  destruct (network w (calls s) _) as [e | r]; simpl; [auto|].
  destruct (ok r); simpl; [|auto].
  destruct (json r) as [e | [d|]]; simpl; [auto | | auto].
  destruct (tags d); simpl; auto.
Qed.

Lemma fetchProjectTags_calls (w : world) (project : jsstring) (s t : state) :
  calls s = calls t ->
  fst (fetchProjectTags w project s) = fst (fetchProjectTags w project t).
Proof.
  intros H.
  unfold fetchProjectTags, try_catch, bind, fetch, response_json, core_warning,
    emit, ret, throw.
  rewrite H.
  destruct (network w (calls t) _) as [e | r]; simpl; [auto|].
  destruct (ok r); simpl; [|auto].
  destruct (json r) as [e | [d|]]; simpl; [auto | | auto].
  destruct (tags d); simpl; auto.
Qed.

(** [process_package] is the changelog request for the mapped
    versions, made as the second [fetch] after its start. *)
Lemma process_package_changelog (w : world) (pkg : package) (s : state) :
  exists s2,
    process_package w pkg s
    = fetch_changelog w pkg
        (mapVersionToTag (from pkg) (fetched_tags w pkg s))
        (mapVersionToTag (to pkg) (fetched_tags w pkg s)) s2
    /\ releaseNotesSection s2 = releaseNotesSection s
    /\ hasReleaseNotes s2 = hasReleaseNotes s
    /\ calls s2 = S (calls s).
Proof.
  unfold process_package. unfold bind at 1. cbn [core_info emit].
  set (s0 := {| releaseNotesSection := releaseNotesSection s;
                hasReleaseNotes := hasReleaseNotes s;
                calls := calls s; trace := _ |}).
  unfold bind at 1.
  assert (Ht : fst (fetchProjectTags w (project pkg) s0)
               = Normal (fetched_tags w pkg s)).
  { unfold fetched_tags.
    rewrite (@fetchProjectTags_calls w (project pkg) s s0) by reflexivity.
    destruct (never_throws_fetchProjectTags w (project pkg) s0) as [tags ->].
    reflexivity. }
  destruct (fetchProjectTags_frame w (project pkg) s0) as (Hsec & Hhas & Hcalls).
  destruct (fetchProjectTags w (project pkg) s0) as [c s1].
  simpl in Ht, Hsec, Hhas, Hcalls. subst c.
  unfold bind at 1.
  destruct (_ || _); cbn [core_info emit ret].
  - eexists. split; [reflexivity|]. simpl. auto.
  - exists s1. auto.
Qed.

Lemma never_throws_set_hasReleaseNotes (b : bool) :
  never_throws (set_hasReleaseNotes b).
Proof. intros s. now exists tt. Qed.

(** Decomposes a goal [never_throws m] along the structure of [m]. *)
Ltac no_throw :=
  repeat first
    [ apply never_throws_bind; [ | intro]
    | apply never_throws_for_of; intro
    | apply never_throws_ret
    | apply never_throws_append
    | apply never_throws_emit
    | apply never_throws_set_hasReleaseNotes
    | match goal with
      | |- never_throws (if ?b then _ else _) => destruct b
      | |- never_throws (match ?x with _ => _ end) => destruct x
      end ].

Lemma never_throws_render_group (g : typeGroup) : never_throws (render_group g).
Proof. unfold render_group. no_throw. Qed.

Lemma never_throws_render_record (r : changeRecord) :
  never_throws (render_record r).
Proof. unfold render_record. no_throw. Qed.

Lemma never_throws_render_tail (data : option body) (groups : list typeGroup) :
  never_throws
    (for_of groups render_group ;;
     (if 0 <? List.length (data_changeRecords data) then
        append (js "#### Change Records" ++ nl ++ nl) ;;
        for_of (data_changeRecords data) render_record ;;
        append nl
      else ret tt) ;;
     append nl).
Proof.
  no_throw; try apply never_throws_render_group;
    try apply never_throws_render_record.
Qed.

Lemma quiet_render_tail (data : option body) (groups : list typeGroup) :
  preserves quiet
    (for_of groups render_group ;;
     (if 0 <? List.length (data_changeRecords data) then
        append (js "#### Change Records" ++ nl ++ nl) ;;
        for_of (data_changeRecords data) render_record ;;
        append nl
      else ret tt) ;;
     append nl).
Proof.
  quiet; try apply quiet_render_group; try apply quiet_render_record.
Qed.

(** A successful changelog response: the heading, the version line
    and, when [changes] is not empty, the compare link. *)
Lemma fetch_changelog_ok (w : world) (pkg : package) (mappedFrom mappedTo : jsstring)
      (s : state) (r : response) (data : option body) :
  network w (calls s) (apiUrl pkg mappedFrom mappedTo) = Resolves r ->
  ok r = true ->
  json r = JsonValue data ->
  let s' := snd (fetch_changelog w pkg mappedFrom mappedTo s) in
  match data_changes data with
  | Some (_ :: _) =>
      exists rest,
        releaseNotesSection s'
        = releaseNotesSection s ++ heading pkg ++ version_line pkg mappedTo
            ++ compare_link pkg mappedFrom mappedTo ++ nl ++ nl ++ rest
  | _ =>
      releaseNotesSection s'
      = releaseNotesSection s ++ heading pkg ++ version_line pkg mappedTo
          ++ nl ++ nl ++ js "_No release notes available_" ++ nl ++ nl
  end.
Proof.
  intros Hnet Hok Hjson s'.
  assert (Hno : forall s0,
             render_no_notes pkg mappedTo s0
             = (Normal tt,
                 snd (render_no_notes pkg mappedTo s0))
             /\ releaseNotesSection (snd (render_no_notes pkg mappedTo s0))
                = releaseNotesSection s0 ++ heading pkg ++ version_line pkg mappedTo
                    ++ nl ++ nl ++ js "_No release notes available_" ++ nl ++ nl).
  { intros s0. split; [reflexivity|].
    unfold render_no_notes, bind, append, heading, version_line.
    cbn [snd releaseNotesSection]. text_eq. }
  destruct (data_changes data) as [[|g gs]|] eqn:Hch; subst s';
    unfold fetch_changelog, try_catch; unfold bind at 1; unfold fetch;
    rewrite Hnet, Hok; cbn [negb];
    unfold bind at 1; unfold response_json; rewrite Hjson; cbn [ret];
    rewrite Hch; cbn [List.length Nat.ltb Nat.leb].
  - destruct (Hno {| releaseNotesSection := releaseNotesSection s;
                     hasReleaseNotes := hasReleaseNotes s;
                     calls := S (calls s);
                     trace := trace s ++ [Fetch (apiUrl pkg mappedFrom mappedTo)] |})
      as [-> ->].
    reflexivity.
  - unfold render_notes. unfold bind at 1. cbn [set_hasReleaseNotes].
    unfold bind at 1. cbn [append].
    unfold bind at 1. cbn [append].
    match goal with
    | |- context [bind (for_of (g :: gs) render_group) ?k ?s2] =>
        pose proof (quiet_render_tail data (g :: gs) s2) as [[rest Hrest] _];
        rewrite (never_throws_unit s2 (never_throws_render_tail data (g :: gs)))
    end.
    cbn [snd]. exists rest. rewrite Hrest. cbn [releaseNotesSection].
    unfold heading, version_line, compare_link. text_eq.
  - destruct (Hno {| releaseNotesSection := releaseNotesSection s;
                     hasReleaseNotes := hasReleaseNotes s;
                     calls := S (calls s);
                     trace := trace s ++ [Fetch (apiUrl pkg mappedFrom mappedTo)] |})
      as [-> ->].
    reflexivity.
Qed.

(** A changelog request that brings no change adds one placeholder
    block and leaves [hasReleaseNotes] as it is. *)
Lemma fetch_changelog_no_changes (w : world) (pkg : package)
      (mappedFrom mappedTo : jsstring) (s : state) :
  no_changes (network w (calls s) (apiUrl pkg mappedFrom mappedTo)) ->
  exists block s',
    fetch_changelog w pkg mappedFrom mappedTo s = (Normal tt, s')
    /\ placeholder pkg block
    /\ releaseNotesSection s' = releaseNotesSection s ++ block
    /\ hasReleaseNotes s' = hasReleaseNotes s.
Proof.
  intros Hno.
  unfold fetch_changelog, try_catch. unfold bind at 1. unfold fetch.
  destruct (network w (calls s) (apiUrl pkg mappedFrom mappedTo))
    as [e | r]; cbn [no_changes] in Hno.
  - eexists. eexists. split; [reflexivity|].
    split; [apply (fetch_error pkg e)|].
    unfold heading. cbn [releaseNotesSection hasReleaseNotes].
    split; [text_eq | reflexivity].
  - destruct (ok r) eqn:Hok; cbn [negb].
    + destruct Hno as [Hno | Hno]; [discriminate|].
      unfold bind at 1. unfold response_json.
      destruct (json r) as [e | data]; cbn [throw ret].
      * eexists. eexists. split; [reflexivity|].
        split; [apply (fetch_error pkg e)|].
        unfold heading. cbn [releaseNotesSection hasReleaseNotes].
        split; [text_eq | reflexivity].
      * exists (heading pkg ++ version_line pkg mappedTo ++ nl ++ nl
                  ++ js "_No release notes available_" ++ nl ++ nl).
        destruct (data_changes data) as [[|g gs]|]; [ | destruct Hno | ];
          cbn [List.length Nat.ltb Nat.leb];
          (eexists; split; [reflexivity|]);
          (split; [apply no_release_notes|]);
          unfold heading, version_line;
          cbn [releaseNotesSection hasReleaseNotes];
          (split; [text_eq | reflexivity]).
    + eexists. eexists. split; [reflexivity|].
      split; [apply could_not_fetch|].
      unfold heading. cbn [releaseNotesSection hasReleaseNotes].
      split; [text_eq | reflexivity].
Qed.

Lemma apiUrl_prefix (pkg : package) (mappedFrom mappedTo : jsstring) :
  startsWith changelog_prefix (apiUrl pkg mappedFrom mappedTo) = true.
Proof. unfold apiUrl, changelog_prefix. apply startsWith_app. Qed.

Lemma loop_placeholders (w : world) :
  (forall k url, startsWith changelog_prefix url = true ->
                 no_changes (network w k url)) ->
  forall pkgs s,
    let s' := snd (for_of pkgs (process_package w) s) in
    exists blocks,
      Forall2 placeholder pkgs blocks
      /\ releaseNotesSection s' = releaseNotesSection s ++ List.concat blocks
      /\ hasReleaseNotes s' = hasReleaseNotes s.
Proof.
  intros Hnet pkgs. induction pkgs as [|pkg pkgs IH]; intros s s'; subst s'.
  - exists []. repeat split; [constructor | simpl; now rewrite app_nil_r].
  - cbn [for_of]. unfold bind.
    rewrite (never_throws_unit s (never_throws_process_package w pkg)).
    destruct (process_package_changelog w pkg s) as (s2 & E & Hsec & Hhas & _).
    rewrite E.
    set (mf := mapVersionToTag (from pkg) (fetched_tags w pkg s)).
    set (mt := mapVersionToTag (to pkg) (fetched_tags w pkg s)).
    destruct (@fetch_changelog_no_changes w pkg mf mt s2)
      as (block & s3 & E3 & Hb & Hs & Hh).
    { apply Hnet, apiUrl_prefix. }
    rewrite E3. cbn [snd].
    destruct (IH s3) as (blocks & Hbs & Hs' & Hh').
    exists (block :: blocks). split; [now constructor|]. split.
    + rewrite Hs', Hs, Hsec. cbn [List.concat]. now rewrite app_assoc.
    + now rewrite Hh', Hh, Hhas.
Qed.

(** ** Claims about the rendered section and the update *)

(** C10: with a token, at least one [drupal/] package, a pull request
    and a body that does not hold the heading, the update call is made
    even when no changelog request brings a change; the text appended
    to the body is then the heading block followed by one placeholder
    block per package, in order. *)
Theorem update_without_release_notes (w : world) (n : N) (b : option jsstring) :
  truthy (or_empty (GITHUB_TOKEN (env w))) = true ->
  drupalPackages (env w) <> [] ->
  pull_request_number (github_context w) = Some n ->
  pulls_get w = inr b ->
  already_present b = false ->
  (forall k url, startsWith changelog_prefix url = true ->
                 no_changes (network w k url)) ->
  exists blocks,
    Forall2 placeholder (drupalPackages (env w)) blocks
    /\ update_calls (run_trace w)
       = [or_empty b ++ initial_section ++ List.concat blocks]
    /\ hasReleaseNotes (after_loop w) = false.
Proof.
  intros Htoken Hpkgs Hnum Hget Hmark Hnet.
  destruct (@loop_placeholders w Hnet (drupalPackages (env w)) loop_start)
    as (blocks & Hb & Hs & Hh).
  fold (after_loop w) in Hs, Hh.
  exists blocks. split; [assumption|]. split; [|exact Hh].
  rewrite (@run_reaches_update w n b) by assumption.
  now rewrite Hs.
Qed.

(** C8, as the code has it: in the section of a package whose
    changelog request succeeds, the release-notes URL and the compare
    URL are built from the mapped versions and the visible versions are
    the ones given; the compare link is there exactly when the
    [changes] array of the response is not empty. *)
Theorem package_section_urls (w : world) (pkg : package) (s : state)
        (r : response) (data : option body) :
  let tags := fetched_tags w pkg s in
  let mappedFrom := mapVersionToTag (from pkg) tags in
  let mappedTo := mapVersionToTag (to pkg) tags in
  let s' := snd (process_package w pkg s) in
  network w (S (calls s)) (apiUrl pkg mappedFrom mappedTo) = Resolves r ->
  ok r = true ->
  json r = JsonValue data ->
  match data_changes data with
  | Some (_ :: _) =>
      exists rest,
        releaseNotesSection s'
        = releaseNotesSection s ++ heading pkg ++ version_line pkg mappedTo
            ++ compare_link pkg mappedFrom mappedTo ++ nl ++ nl ++ rest
  | _ =>
      releaseNotesSection s'
      = releaseNotesSection s ++ heading pkg ++ version_line pkg mappedTo
          ++ nl ++ nl ++ js "_No release notes available_" ++ nl ++ nl
  end.
Proof.
  intros tags mappedFrom mappedTo s' Hnet Hok Hjson. subst s'.
  destruct (process_package_changelog w pkg s) as (s2 & E & Hsec & _ & Hcalls).
  fold tags mappedFrom mappedTo in E. rewrite E. rewrite <- Hsec.
  apply fetch_changelog_ok with (r := r); try assumption.
  now rewrite Hcalls.
Qed.

(** ** Concrete runs *)

Lemma marker_prevents_update_witness :
  update_calls (run_trace marked_world) = []
  /\ fst (run marked_world initial_state) = Normal tt.
Proof.
  apply (proj1 (marker_prevents_update marked_world)
               (js "Bumps token. ## Drupal Release Notes")).
  - reflexivity.
  - vm_compute. reflexivity.
Defined.

Lemma fetchProjectTags_never_throws_witness :
  fst (fetchProjectTags failing_world (js "token") initial_state) = Normal [].
Proof.
  apply (proj1 (proj2 (fetchProjectTags_never_throws
                         failing_world (js "token") initial_state))
               {| ok := false; status := 500; json := JsonValue None |}).
  - reflexivity.
  - reflexivity.
Defined.

Lemma null_body_update_witness :
  update_calls (run_trace null_body_world)
  = [releaseNotesSection (after_loop null_body_world)]
  /\ startsWith initial_section
                (releaseNotesSection (after_loop null_body_world)) = true.
Proof.
  apply (@null_body_update null_body_world 123%N).
  - reflexivity.
  - vm_compute. discriminate.
  - reflexivity.
  - reflexivity.
Defined.

Lemma update_without_release_notes_witness :
  exists blocks,
    Forall2 placeholder (drupalPackages (env failing_world)) blocks
    /\ update_calls (run_trace failing_world)
       = [js "Bumps core and token." ++ initial_section ++ List.concat blocks]
    /\ hasReleaseNotes (after_loop failing_world) = false.
Proof.
  apply (@update_without_release_notes failing_world 123%N
           (Some (js "Bumps core and token."))).
  - reflexivity.
  - vm_compute. discriminate.
  - reflexivity.
  - reflexivity.
  - vm_compute. reflexivity.
  - intros k url _. left. reflexivity.
Defined.

Lemma package_section_urls_witness :
  exists rest,
    releaseNotesSection
      (snd (process_package legacy_world (token_pkg (js "1.38.0") (js "1.40.0"))
                            loop_start))
    = initial_section
        ++ heading (token_pkg (js "1.38.0") (js "1.40.0"))
        ++ version_line (token_pkg (js "1.38.0") (js "1.40.0")) (js "8.x-1.40")
        ++ compare_link (token_pkg (js "1.38.0") (js "1.40.0"))
             (js "8.x-1.38") (js "8.x-1.40")
        ++ nl ++ nl ++ rest.
Proof.
  apply (@package_section_urls legacy_world
           (token_pkg (js "1.38.0") (js "1.40.0")) loop_start
           {| ok := true; status := 200; json := JsonValue (Some one_bug) |}
           (Some one_bug)).
  - vm_compute. reflexivity.
  - reflexivity.
  - reflexivity.
Defined.

(** C8 as stated fails: a response whose only group is empty brings
    no change, and the section still carries the compare link. *)
Lemma compare_link_without_change :
  all_changes empty_group = []
  /\ releaseNotesSection
       (snd (process_package empty_group_world
                             (token_pkg (js "1.0.0") (js "1.1.0")) loop_start))
     = initial_section
         ++ heading (token_pkg (js "1.0.0") (js "1.1.0"))
         ++ version_line (token_pkg (js "1.0.0") (js "1.1.0")) (js "1.1.0")
         ++ compare_link (token_pkg (js "1.0.0") (js "1.1.0"))
              (js "1.0.0") (js "1.1.0")
         ++ nl ++ nl ++ nl.
Proof. split; vm_compute; reflexivity. Qed.

(* ================================================================= *)
(** * Further properties of the action *)

(** ** What a match tells about the input *)

Section Inversion.
Variable R : Type.
Variables (p : N -> bool) (k : jsstring -> option R).

Lemma star_inv (s : jsstring) (r : R) :
  Regex.star p s k = Some r ->
  exists d rest, s = d ++ rest /\ all p d /\ k rest = Some r.
Proof.
  induction s as [|c s IH]; simpl; intros H.
  - exists [], []. repeat split; [constructor | assumption].
  - destruct (p c) eqn:Hc.
    + destruct (Regex.star p s k) as [r'|] eqn:Hs.
      * injection H as ->. destruct (IH eq_refl) as (d & rest & -> & Hd & Hk).
        exists (c :: d), rest. repeat split; [now constructor | assumption].
      * exists [], (c :: s). repeat split; [constructor | assumption].
    + exists [], (c :: s). repeat split; [constructor | assumption].
Qed.

Lemma plus_inv (s : jsstring) (r : R) :
  Regex.plus p s k = Some r ->
  exists d rest, s = d ++ rest /\ all p d /\ d <> [] /\ k rest = Some r.
Proof.
  destruct s as [|c s]; simpl; [discriminate|].
  destruct (p c) eqn:Hc; [|discriminate].
  intros H. destruct (star_inv _ H) as (d & rest & -> & Hd & Hk).
  exists (c :: d), rest. repeat split; [now constructor | discriminate | assumption].
Qed.
End Inversion.

(** A match of [semver_re] only happens on a version of the shape
    MAJOR.MINOR.PATCH, and captures its three parts. *)
Lemma semver_match_inv (v : jsstring) (caps : list jsstring) :
  Regex.match_ semver_re v = Some caps ->
  exists major minor patch,
    digits major /\ digits minor /\ digits patch
    /\ v = semver major minor patch /\ caps = [major; minor; patch].
Proof.
  unfold Regex.match_, semver_re. cbn [Regex.seqs]. cbn [Regex.exec].
  intros H.
  apply plus_inv in H as (major & r1 & -> & HM & HMn & H).
  rewrite firstn_consumed in H.
  destruct r1 as [|c1 r1]; [discriminate|].
  destruct (N.eqb_spec c1 dot) as [-> | ]; [|discriminate].
  apply plus_inv in H as (minor & r2 & -> & Hm & Hmn & H).
  rewrite firstn_consumed in H.
  destruct r2 as [|c2 r2]; [discriminate|].
  destruct (N.eqb_spec c2 dot) as [-> | ]; [|discriminate].
  apply plus_inv in H as (patch & r3 & -> & Hp & Hpn & H).
  destruct r3 as [|c3 r3]; [|discriminate].
  rewrite firstn_consumed in H. injection H as <-.
  exists major, minor, patch. rewrite app_nil_r.
  repeat split; assumption.
Qed.

(** ** The version mapper *)

Lemma mapVersionToTag_cases (v : jsstring) (T : list jsstring) :
  mapVersionToTag v T = v \/ In (mapVersionToTag v T) T.
Proof.
  unfold mapVersionToTag.
  destruct (array_includes T v); [now left|].
  destruct (Regex.match_ semver_re v) as [[|major [|minor caps]]|];
    try now left.
  destruct (array_includes T _) eqn:H; [|now left].
  right. now apply array_includes_In.
Qed.

(** X1: the mapper changes a version only in one way: the version has
    the shape MAJOR.MINOR.PATCH, is not itself a tag, and the result is
    the tag 8.x-MAJOR.MINOR taken from the list.  Any other version,
    and any list without that tag, gives the version back. *)
Theorem mapVersionToTag_changed (v : jsstring) (T : list jsstring) :
  mapVersionToTag v T <> v ->
  exists major minor patch,
    digits major /\ digits minor /\ digits patch
    /\ v = semver major minor patch
    /\ ~ In v T
    /\ mapVersionToTag v T = legacy_tag major minor
    /\ In (legacy_tag major minor) T.
Proof.
  unfold mapVersionToTag. intros H.
  destruct (array_includes T v) eqn:Hv; [congruence|].
  destruct (Regex.match_ semver_re v) as [caps|] eqn:Hm; [|congruence].
  apply semver_match_inv in Hm
    as (major & minor & patch & HM & Hmi & Hp & -> & ->).
  fold (legacy_tag major minor) in H |- *.
  destruct (array_includes T (legacy_tag major minor)) eqn:Hl; [|congruence].
  exists major, minor, patch.
  repeat split; try assumption; try apply HM; try apply Hmi; try apply Hp.
  - now apply array_includes_not_In.
  - now apply array_includes_In.
Qed.

Lemma mapVersionToTag_changed_witness :
  exists major minor patch,
    digits major /\ digits minor /\ digits patch
    /\ js "1.38.0" = semver major minor patch
    /\ ~ In (js "1.38.0") [js "7.x-1.38"; js "8.x-1.38"]
    /\ mapVersionToTag (js "1.38.0") [js "7.x-1.38"; js "8.x-1.38"]
       = legacy_tag major minor
    /\ In (legacy_tag major minor) [js "7.x-1.38"; js "8.x-1.38"].
Proof.
  apply (@mapVersionToTag_changed (js "1.38.0") [js "7.x-1.38"; js "8.x-1.38"]).
  vm_compute. discriminate.
Defined.

(** X2: mapping is idempotent: a mapped version maps to itself, so
    the result can be passed through the mapper again without harm. *)
Theorem mapVersionToTag_idempotent (v : jsstring) (T : list jsstring) :
  mapVersionToTag (mapVersionToTag v T) T = mapVersionToTag v T.
Proof.
  destruct (mapVersionToTag_cases v T) as [E | H]; [now rewrite !E|].
  unfold mapVersionToTag at 1.
  apply array_includes_In in H. now rewrite H.
Qed.

(** ** The prefix removed from a summary *)

(** A successful match calls its continuation on a trailing part of
    the input. *)
Lemma exec_suffix (R : Type) (r : Regex.re) :
  forall (s : jsstring) (caps : list jsstring)
         (k : jsstring -> list jsstring -> option R) (x : R),
    Regex.exec r s caps k = Some x ->
    exists pre s' caps', s = pre ++ s' /\ k s' caps' = Some x.
Proof.
  induction r as [ | c | p | p | p | a IHa b IHb | a IHa | a IHa | ];
    intros s caps k x H; cbn [Regex.exec] in H.
  - exists [], s, caps. now split.
  - destruct s as [|y s]; [discriminate|].
    destruct (N.eqb y c); [|discriminate].
    exists [y], s, caps. now split.
  - destruct s as [|y s]; [discriminate|].
    destruct (p y); [|discriminate].
    exists [y], s, caps. now split.
  - apply plus_inv in H as (d & rest & -> & _ & _ & H).
    exists d, rest, caps. now split.
  - apply star_inv in H as (d & rest & -> & _ & H).
    exists d, rest, caps. now split.
  - apply IHa in H as (pre1 & s1 & caps1 & -> & H).
    apply IHb in H as (pre2 & s2 & caps2 & -> & H).
    exists (pre1 ++ pre2), s2, caps2. split; [now rewrite app_assoc | assumption].
  - destruct (Regex.exec a s caps k) as [y|] eqn:Ha.
    + injection H as ->. now apply IHa in Ha.
    + exists [], s, caps. now split.
  - apply IHa in H as (pre & s' & caps' & -> & H). eauto.
  - destruct s; [|discriminate]. exists [], [], caps. now split.
Qed.

(** X3: removing the issue-id prefix only ever drops a leading part of
    the summary: what is displayed is a trailing part of the summary
    as it came, never other text. *)
Theorem replace_empty_suffix (r : Regex.re) (s : jsstring) :
  exists removed, s = removed ++ Regex.replace_empty r s.
Proof.
  unfold Regex.replace_empty.
  destruct (Regex.exec r s [] (fun rest _ => Some rest)) as [rest|] eqn:H.
  - apply exec_suffix in H as (pre & s' & caps' & -> & H).
    injection H as ->. now exists pre.
  - now exists [].
Qed.

(** X4: a summary that does not start with [#] and a digit is
    displayed as it is. *)
Theorem summary_without_id_unchanged (s : jsstring) :
  (forall c rest, s = hash :: c :: rest -> is_digit c = false) ->
  Regex.replace_empty issue_prefix_re s = s.
Proof.
  intros H. unfold Regex.replace_empty, issue_prefix_re.
  cbn [Regex.seqs]. cbn [Regex.exec].
  destruct s as [|h s]; [reflexivity|].
  destruct (N.eqb_spec h hash) as [-> | ]; [|reflexivity].
  destruct s as [|c s]; [reflexivity|].
  cbn [Regex.plus]. now rewrite (H c s eq_refl).
Qed.

Lemma summary_without_id_unchanged_witness :
  Regex.replace_empty issue_prefix_re (js "Update .cspell-project-words.txt file")
  = js "Update .cspell-project-words.txt file".
Proof.
  apply (@summary_without_id_unchanged (js "Update .cspell-project-words.txt file")).
  intros c rest H. discriminate H.
Defined.

(** ** The string operations the action relies on *)

Lemma startsWith_spec (p s : jsstring) :
  startsWith p s = true <-> exists rest, s = p ++ rest.
Proof.
  split.
  - revert s. induction p as [|x p IH]; intros s H.
    + now exists s.
    + destruct s as [|y s]; [discriminate|]. simpl in H.
      apply andb_true_iff in H as [Hx Hp]. apply N.eqb_eq in Hx. subst y.
      destruct (IH s Hp) as [rest ->]. now exists rest.
  - intros [rest ->]. apply startsWith_app.
Qed.

(** X5: the test for the heading, [includes], holds exactly when the
    text can be cut into a part before the pattern, the pattern and a
    part after it. *)
Theorem includes_spec (p s : jsstring) :
  includes p s = true <-> exists before after, s = before ++ p ++ after.
Proof.
  split.
  - induction s as [|c s IH]; cbn [includes]; intros H.
    + rewrite orb_false_r in H. apply startsWith_spec in H as [rest E].
      exists [], rest. exact E.
    + apply orb_true_iff in H as [H | H].
      * apply startsWith_spec in H as [rest E]. exists [], rest. exact E.
      * destruct (IH H) as (before & after & ->).
        now exists (c :: before), after.
  - intros (before & after & ->). apply includes_app.
Qed.

Lemma split_cons (sep c : N) (s : jsstring) :
  c <> sep ->
  exists piece rest, split sep s = piece :: rest
                     /\ split sep (c :: s) = (c :: piece) :: rest.
Proof.
  intros Hc. cbn [split]. destruct (N.eqb_spec c sep) as [E|_]; [contradiction|].
  destruct (split sep s) as [|piece rest] eqn:Hs.
  - now apply split_not_nil in Hs.
  - now exists piece, rest.
Qed.

(** X6: splitting on a separator loses nothing: the pieces hold no
    separator and joining them with the separator gives the text
    back, so the three lists of the environment are read in full. *)
Theorem split_join (sep : N) (s : jsstring) :
  join sep (split sep s) = s
  /\ Forall (fun piece => ~ In sep piece) (split sep s).
Proof.
  induction s as [|c s [IHj IHf]].
  - split; [reflexivity | repeat constructor; intros []].
  - destruct (N.eqb_spec c sep) as [-> | Hc].
    + cbn [split]. rewrite N.eqb_refl. split.
      * cbn [join]. destruct (split sep s) as [|piece rest] eqn:Hs;
          [now apply split_not_nil in Hs|].
        rewrite IHj. reflexivity.
      * constructor; [intros [] | assumption].
    + destruct (split_cons s Hc) as (piece & rest & Hs & ->).
      rewrite Hs in IHj, IHf. apply Forall_cons_iff in IHf as [Hp Hrest]. split.
      * destruct rest as [|piece' rest]; cbn [join] in IHj |- *;
          simpl; now rewrite IHj.
      * constructor; [|assumption].
        intros [E | Hin]; [now apply Hc | now apply Hp].
Qed.

(** ** The package filter *)

Lemma replace_at_start (p r s : jsstring) :
  startsWith p s = true -> replace p r s = r ++ skipn (List.length p) s.
Proof. intros H. destruct s; cbn [replace]; now rewrite H. Qed.

Lemma replace_prefix (p s : jsstring) :
  startsWith p s = true -> p ++ replace p [] s = s.
Proof.
  intros H. rewrite replace_at_start by assumption.
  apply startsWith_spec in H as [rest ->]. cbn [app].
  now rewrite skipn_app, skipn_all, Nat.sub_diag.
Qed.

Lemma drupalPackages_from_names (names fromVersions toVersions : list jsstring) :
  forall i,
    map pkg_name (drupalPackages_from i names fromVersions toVersions)
    = filter (startsWith (js "drupal/")) names.
Proof.
  induction names as [|n names IH]; intros i;
    cbn [drupalPackages_from filter]; [reflexivity|].
  destruct (startsWith (js "drupal/") n); cbn [map pkg_name]; now rewrite IH.
Qed.

(** X7: the packages are exactly the trimmed names that start with
    [drupal/], in the order given; nothing else is kept and no such
    name is dropped. *)
Theorem drupalPackages_names (e : environment) :
  map pkg_name (drupalPackages e)
  = filter (startsWith (js "drupal/"))
           (map trim (split comma (or_empty (DEPENDENCY_NAMES e)))).
Proof. apply drupalPackages_from_names. Qed.

Lemma drupalPackages_from_project (names fromVersions toVersions : list jsstring) :
  forall i,
    Forall (fun pkg => pkg_name pkg = js "drupal/" ++ project pkg)
           (drupalPackages_from i names fromVersions toVersions).
Proof.
  induction names as [|n names IH]; intros i; cbn [drupalPackages_from];
    [constructor|].
  destruct (startsWith (js "drupal/") n) eqn:H; [|apply IH].
  constructor; [|apply IH]. cbn [pkg_name project].
  symmetry. now apply replace_prefix.
Qed.

(** X8: the project of a package is its name without the leading
    [drupal/]: the name is that prefix followed by the project, so
    only the first occurrence of the prefix is removed. *)
Theorem drupalPackages_project (e : environment) :
  Forall (fun pkg => pkg_name pkg = js "drupal/" ++ project pkg)
         (drupalPackages e).
Proof. apply drupalPackages_from_project. Qed.

Lemma index_or_first_own (before : list jsstring) (v : jsstring)
      (after : list jsstring) :
  truthy v = true ->
  index_or_first (before ++ v :: after) (List.length before) = v.
Proof.
  intros H. unfold index_or_first.
  rewrite nth_error_app2, Nat.sub_diag by lia. cbn [nth_error].
  now rewrite H.
Qed.

Lemma drupalPackages_from_zip (names : list jsstring) :
  forall (fs ts doneF doneT : list jsstring),
    List.length fs = List.length names ->
    List.length ts = List.length names ->
    Forall (fun v => truthy v = true) fs ->
    Forall (fun v => truthy v = true) ts ->
    List.length doneF = List.length doneT ->
    drupalPackages_from (List.length doneF) names (doneF ++ fs) (doneT ++ ts)
    = map package_of (filter is_drupal (combine names (combine fs ts))).
Proof.
  induction names as [|n names IH]; intros fs ts doneF doneT Hf Ht HF HT Hd;
    [reflexivity|].
  destruct fs as [|f fs]; [discriminate|]. destruct ts as [|t ts]; [discriminate|].
  apply Forall_cons_iff in HF as [Hfv HF]. apply Forall_cons_iff in HT as [Htv HT].
  cbn [drupalPackages_from combine filter]. unfold is_drupal at 1. cbn [fst].
  assert (Hrest : drupalPackages_from (S (List.length doneF)) names
                    (doneF ++ f :: fs) (doneT ++ t :: ts)
                  = map package_of (filter is_drupal (combine names (combine fs ts)))).
  { replace (doneF ++ f :: fs) with ((doneF ++ [f]) ++ fs)
      by (now rewrite <- app_assoc).
    replace (doneT ++ t :: ts) with ((doneT ++ [t]) ++ ts)
      by (now rewrite <- app_assoc).
    replace (S (List.length doneF)) with (List.length (doneF ++ [f]))
      by (rewrite length_app; simpl; lia).
    apply IH; try assumption; simpl in *; try lia.
    rewrite !length_app. simpl. lia. }
  rewrite Hrest.
  destruct (startsWith (js "drupal/") n); [|reflexivity].
  cbn [map]. f_equal. unfold package_of. cbn [fst snd].
  rewrite index_or_first_own by assumption.
  rewrite Hd, index_or_first_own by assumption. reflexivity.
Qed.

(** X9: when each name has its own non-empty previous and new
    version, names and versions are paired by position: the packages
    are the [drupal/] entries of the three lists zipped together. *)
Theorem drupalPackages_zip (names fromVersions toVersions : list jsstring) :
  List.length fromVersions = List.length names ->
  List.length toVersions = List.length names ->
  Forall (fun v => truthy v = true) fromVersions ->
  Forall (fun v => truthy v = true) toVersions ->
  drupalPackages_from 0 names fromVersions toVersions
  = map package_of
        (filter is_drupal (combine names (combine fromVersions toVersions))).
Proof.
  intros Hf Ht HF HT.
  apply (@drupalPackages_from_zip names fromVersions toVersions [] []);
    trivial.
Qed.

Lemma drupalPackages_zip_witness :
  drupalPackages_from 0 [js "drupal/core"; js "other/pkg"; js "drupal/token"]
                      [js "10.0.0"; js "1.0.0"; js "1.38.0"]
                      [js "10.1.0"; js "1.1.0"; js "1.40.0"]
  = map package_of
        (filter is_drupal
           (combine [js "drupal/core"; js "other/pkg"; js "drupal/token"]
              (combine [js "10.0.0"; js "1.0.0"; js "1.38.0"]
                       [js "10.1.0"; js "1.1.0"; js "1.40.0"]))).
Proof.
  apply (@drupalPackages_zip
           [js "drupal/core"; js "other/pkg"; js "drupal/token"]
           [js "10.0.0"; js "1.0.0"; js "1.38.0"]
           [js "10.1.0"; js "1.1.0"; js "1.40.0"]).
  - reflexivity.
  - reflexivity.
  - repeat constructor.
  - repeat constructor.
Defined.

(** ** Events a computation does not emit *)

Section Kept.
Variable X : Type.
Variable proj : event -> list X.

Lemma same_on_refl (s : state) : same_on proj s s.
Proof. reflexivity. Qed.

Lemma same_on_trans (a b c : state) :
  same_on proj a b -> same_on proj b c -> same_on proj a c.
Proof. unfold same_on. congruence. Qed.

Lemma kept_ret A (a : A) : preserves (same_on proj) (ret a).
Proof. apply preserves_ret, same_on_refl. Qed.

Lemma kept_throw A (e : jsstring) : preserves (same_on proj) (@throw A e).
Proof. apply preserves_throw, same_on_refl. Qed.

Lemma kept_bind A B (m : M A) (f : A -> M B) :
  preserves (same_on proj) m -> (forall a, preserves (same_on proj) (f a)) ->
  preserves (same_on proj) (bind m f).
Proof. apply preserves_bind, same_on_trans. Qed.

Lemma kept_try_catch A (m : M A) (h : jsstring -> M A) :
  preserves (same_on proj) m -> (forall e, preserves (same_on proj) (h e)) ->
  preserves (same_on proj) (try_catch m h).
Proof. apply preserves_try_catch, same_on_trans. Qed.

Lemma kept_for_of A (l : list A) (body : A -> M unit) :
  (forall x, preserves (same_on proj) (body x)) ->
  preserves (same_on proj) (for_of l body).
Proof. apply preserves_for_of; [apply same_on_refl | apply same_on_trans]. Qed.

Lemma kept_emit (e : event) : proj e = [] -> preserves (same_on proj) (emit e).
Proof.
  intros He s. unfold same_on. cbn [emit snd trace].
  rewrite flat_map_app. cbn [flat_map]. rewrite He. now rewrite !app_nil_r.
Qed.

Lemma kept_append (t : jsstring) : preserves (same_on proj) (append t).
Proof. intros s. reflexivity. Qed.

Lemma kept_set_hasReleaseNotes (b : bool) :
  preserves (same_on proj) (set_hasReleaseNotes b).
Proof. intros s. reflexivity. Qed.

Lemma kept_response_json (r : response) :
  preserves (same_on proj) (response_json r).
Proof. intros s. unfold response_json. destruct (json r); reflexivity. Qed.

Lemma kept_fetch (w : world) (url : jsstring) :
  proj (Fetch url) = [] -> preserves (same_on proj) (fetch w url).
Proof.
  intros He s. unfold same_on, fetch.
  destruct (network w (calls s) url); cbn [snd trace];
    rewrite flat_map_app; cbn [flat_map]; rewrite He; now rewrite !app_nil_r.
Qed.

(** A request followed by anything that emits no selected event shows
    exactly the request. *)
Lemma after_fetch (w : world) (url : jsstring) A
      (f : response -> M A) (h : jsstring -> M A) (s : state) :
  (forall r, preserves (same_on proj) (f r)) ->
  (forall e, preserves (same_on proj) (h e)) ->
  flat_map proj (trace (snd (try_catch (bind (fetch w url) f) h s)))
  = flat_map proj (trace s) ++ proj (Fetch url).
Proof.
  intros Hf Hh. unfold try_catch, bind, fetch.
  set (s1 := {| releaseNotesSection := releaseNotesSection s;
                hasReleaseNotes := hasReleaseNotes s;
                calls := S (calls s);
                trace := trace s ++ [Fetch url] |}).
  assert (H1 : flat_map proj (trace s1) = flat_map proj (trace s) ++ proj (Fetch url)).
  { cbn [s1 trace]. rewrite flat_map_app. cbn [flat_map]. now rewrite app_nil_r. }
  rewrite <- H1.
  destruct (network w (calls s) url) as [e | r].
  - apply Hh.
  - pose proof (Hf r s1) as H2. destruct (f r s1) as [[a | e] s2]; cbn [snd] in *.
    + exact H2.
    + rewrite <- H2. apply Hh.
Qed.
End Kept.

(** Decomposes a goal [preserves (same_on proj) m] along the structure
    of [m]. *)
Ltac kept :=
  repeat first
    [ apply kept_bind; [ | intro]
    | apply kept_try_catch; [ | intro]
    | apply kept_for_of; intro
    | apply kept_ret
    | apply kept_throw
    | apply kept_append
    | apply kept_set_hasReleaseNotes
    | apply kept_response_json
    | apply kept_emit; reflexivity
    | apply kept_fetch; reflexivity
    | match goal with
      | |- preserves _ (if ?b then _ else _) => destruct b
      | |- preserves _ (match ?x with _ => _ end) => destruct x
      end ].

Lemma outward_process_package (w : world) (pkg : package) :
  preserves (same_on outward) (process_package w pkg).
Proof.
  unfold process_package, fetchProjectTags, fetch_changelog, render_notes,
    render_no_notes, render_group, render_record, core_info, core_warning,
    core_error.
  kept.
Qed.

(** X10: whatever the two services answer, the loop over the packages
    only logs and requests: it never reports the run as failed and
    never reads or updates the pull request. *)
Theorem loop_keeps_to_itself (w : world) (pkgs : list package) (s : state) :
  flat_map outward (trace (snd (for_of pkgs (process_package w) s)))
  = flat_map outward (trace s).
Proof.
  apply (@kept_for_of _ outward). intros pkg. apply outward_process_package.
Qed.

(** ** The requests of a run *)

Lemma fetched_urls_requests (t : list event) :
  fetched_urls t = flat_map request t.
Proof.
  induction t as [|e t IH]; [reflexivity|].
  destruct e; cbn [fetched_urls flat_map request app]; now rewrite IH.
Qed.

Lemma fetchProjectTags_requests (w : world) (project : jsstring) (s : state) :
  flat_map request (trace (snd (fetchProjectTags w project s)))
  = flat_map request (trace s) ++ [project_url project].
Proof.
  unfold fetchProjectTags, project_url.
  rewrite after_fetch; [reflexivity | intros r | intros e];
    unfold core_warning; kept.
Qed.

Lemma fetch_changelog_requests (w : world) (pkg : package)
      (mappedFrom mappedTo : jsstring) (s : state) :
  flat_map request (trace (snd (fetch_changelog w pkg mappedFrom mappedTo s)))
  = flat_map request (trace s) ++ [apiUrl pkg mappedFrom mappedTo].
Proof.
  unfold fetch_changelog.
  rewrite after_fetch; [reflexivity | intros r | intros e];
    unfold render_notes, render_no_notes, render_group, render_record,
      core_warning, core_error; kept.
Qed.

Lemma process_package_requests (w : world) (pkg : package) (s : state) :
  flat_map request (trace (snd (process_package w pkg s)))
  = flat_map request (trace s) ++ package_requests pkg (fetched_tags w pkg s).
Proof.
  unfold process_package. unfold bind at 1. cbn [core_info emit].
  set (s0 := {| releaseNotesSection := releaseNotesSection s;
                hasReleaseNotes := hasReleaseNotes s;
                calls := calls s; trace := _ |}).
  assert (H0 : flat_map request (trace s0) = flat_map request (trace s)).
  { cbn [s0 trace]. rewrite flat_map_app. apply app_nil_r. }
  unfold bind at 1.
  assert (Ht : fst (fetchProjectTags w (project pkg) s0)
               = Normal (fetched_tags w pkg s)).
  { unfold fetched_tags.
    rewrite (@fetchProjectTags_calls w (project pkg) s s0) by reflexivity.
    destruct (never_throws_fetchProjectTags w (project pkg) s0) as [tags ->].
    reflexivity. }
  pose proof (fetchProjectTags_requests w (project pkg) s0) as H1.
  destruct (fetchProjectTags w (project pkg) s0) as [c s1].
  cbn [fst snd] in Ht, H1. subst c.
  unfold bind at 1.
  destruct (_ || _); cbn [core_info emit ret];
    rewrite fetch_changelog_requests; cbn [trace];
    rewrite ?flat_map_app; cbn [flat_map request];
    rewrite ?app_nil_r, H1, H0, <- app_assoc; reflexivity.
Qed.

(** X11: the loop makes exactly two requests for each package, in the
    order of the packages: first the tags of the project, then the
    changelog between the versions as mapped with some list of tags. *)
Theorem loop_requests (w : world) (pkgs : list package) (s : state) :
  exists tagss,
    List.length tagss = List.length pkgs
    /\ fetched_urls (trace (snd (for_of pkgs (process_package w) s)))
       = fetched_urls (trace s)
           ++ List.concat (map (fun x => package_requests (fst x) (snd x))
                               (combine pkgs tagss)).
Proof.
  rewrite !fetched_urls_requests. revert s.
  induction pkgs as [|pkg pkgs IH]; intros s.
  - exists []. split; [reflexivity|]. simpl. now rewrite app_nil_r.
  - cbn [for_of]. unfold bind.
    rewrite (never_throws_unit s (never_throws_process_package w pkg)).
    destruct (IH (snd (process_package w pkg s))) as (tagss & Hlen & H).
    exists (fetched_tags w pkg s :: tagss). split; [simpl; now rewrite Hlen|].
    rewrite H, process_package_requests.
    cbn [combine map List.concat fst snd]. now rewrite <- app_assoc.
Qed.

(** ** The ways a run ends *)

(** X12: without a token the run does one thing: it reports
    [GITHUB_TOKEN is required].  Nothing is requested and the pull
    request is not touched. *)
Theorem run_without_token (w : world) :
  truthy (or_empty (GITHUB_TOKEN (env w))) = false ->
  run_trace w = [SetFailed (js "GITHUB_TOKEN is required")].
Proof.
  intros H. unfold run_trace, run, try_catch. rewrite H. reflexivity.
Qed.

Lemma run_without_token_witness :
  run_trace no_token_world = [SetFailed (js "GITHUB_TOKEN is required")].
Proof. apply (@run_without_token no_token_world). reflexivity. Defined.

(** X13: when no name starts with [drupal/] the run logs that and
    stops: nothing is requested, the pull request is neither read nor
    updated and no failure is reported. *)
Theorem run_without_packages (w : world) :
  truthy (or_empty (GITHUB_TOKEN (env w))) = true ->
  drupalPackages (env w) = [] ->
  run_trace w = [Info (js "No drupal/ packages found in this PR")].
Proof.
  intros Ht Hp. unfold run_trace, run, try_catch. rewrite Ht, Hp. reflexivity.
Qed.

Lemma run_without_packages_witness :
  run_trace no_drupal_world = [Info (js "No drupal/ packages found in this PR")].
Proof.
  apply (@run_without_packages no_drupal_world).
  - reflexivity.
  - vm_compute. reflexivity.
Defined.

(** X14: outside a pull request (no [pull_request], or no number, or
    number 0) the run ends after the loop by reporting the failure;
    the packages have been requested by then, and the pull request is
    neither read nor updated. *)
Theorem run_without_pull_request (w : world) :
  truthy (or_empty (GITHUB_TOKEN (env w))) = true ->
  drupalPackages (env w) <> [] ->
  pull_request_number (github_context w) = None ->
  run_trace w
  = trace (after_loop w) ++ no_notes_log w
      ++ [SetFailed (js "This action must be run in the context of a pull request")].
Proof.
  intros Htoken Hne Hnum. to_loop_end w Htoken Hne. rewrite Hnum. unfold_steps.
  unfold no_notes_log.
  destruct (hasReleaseNotes (after_loop w)); cbn [negb snd trace app];
    now rewrite <- ?app_assoc.
Qed.

Lemma run_without_pull_request_witness :
  run_trace no_pull_request_world
  = trace (after_loop no_pull_request_world) ++ no_notes_log no_pull_request_world
      ++ [SetFailed (js "This action must be run in the context of a pull request")].
Proof.
  apply (@run_without_pull_request no_pull_request_world).
  - reflexivity.
  - vm_compute. discriminate.
  - reflexivity.
Defined.

(** X15: when reading the pull request fails, the run reports the
    message of that error and makes no update. *)
Theorem run_with_unreadable_pull_request (w : world) (n : N) (e : jsstring) :
  truthy (or_empty (GITHUB_TOKEN (env w))) = true ->
  drupalPackages (env w) <> [] ->
  pull_request_number (github_context w) = Some n ->
  pulls_get w = inl e ->
  run_trace w
  = trace (after_loop w) ++ no_notes_log w
      ++ [PullsGet (owner (github_context w)) (repo (github_context w)) n;
          SetFailed e].
Proof.
  intros Htoken Hne Hnum Hget. to_loop_end w Htoken Hne. rewrite Hnum.
  unfold_steps. rewrite Hget. unfold no_notes_log.
  destruct (hasReleaseNotes (after_loop w)); cbn [negb snd trace app];
    now rewrite <- ?app_assoc.
Qed.

Lemma run_with_unreadable_pull_request_witness :
  run_trace unreadable_world
  = trace (after_loop unreadable_world) ++ no_notes_log unreadable_world
      ++ [PullsGet (js "test-owner") (js "test-repo") 123%N;
          SetFailed (js "Not Found")].
Proof.
  apply (@run_with_unreadable_pull_request unreadable_world 123%N (js "Not Found")).
  - reflexivity.
  - vm_compute. discriminate.
  - reflexivity.
  - reflexivity.
Defined.

(** X16: when the body read does not hold the heading, the run reads
    the pull request once and updates it once, for the owner, the
    repository and the number of the context; the new body is the old
    one, kept as it is (nothing for [null]), followed by the section.
    It then logs the success, or reports the message of the error
    when the update is refused. *)
Theorem run_with_update (w : world) (n : N) (b : option jsstring) :
  truthy (or_empty (GITHUB_TOKEN (env w))) = true ->
  drupalPackages (env w) <> [] ->
  pull_request_number (github_context w) = Some n ->
  pulls_get w = inr b ->
  already_present b = false ->
  run_trace w
  = trace (after_loop w) ++ no_notes_log w
      ++ [PullsGet (owner (github_context w)) (repo (github_context w)) n;
          PullsUpdate (owner (github_context w)) (repo (github_context w)) n
                      (or_empty b ++ releaseNotesSection (after_loop w));
          match pulls_update w with
          | Some e => SetFailed e
          | None =>
              Info (js "Successfully updated PR description with Drupal release notes")
          end].
Proof.
  intros Htoken Hne Hnum Hget Hmark. to_loop_end w Htoken Hne. rewrite Hnum.
  unfold_steps. rewrite Hget. unfold no_notes_log.
  destruct (hasReleaseNotes (after_loop w)); cbn [negb]; rewrite Hmark;
    destruct (pulls_update w); cbn [snd trace releaseNotesSection app];
    now rewrite <- ?app_assoc.
Qed.

Lemma run_with_update_witness :
  run_trace refused_world
  = trace (after_loop refused_world) ++ no_notes_log refused_world
      ++ [PullsGet (js "test-owner") (js "test-repo") 123%N;
          PullsUpdate (js "test-owner") (js "test-repo") 123%N
                      (js "Existing PR body"
                         ++ releaseNotesSection (after_loop refused_world));
          SetFailed (js "Resource not accessible by integration")].
Proof.
  apply (@run_with_update refused_world 123%N (Some (js "Existing PR body"))).
  - reflexivity.
  - vm_compute. discriminate.
  - reflexivity.
  - reflexivity.
  - vm_compute. reflexivity.
Defined.

(** ** The text of a section *)

Lemma append_nil (s : state) : append [] s = (Normal tt, s).
Proof. destruct s. unfold append. cbn. now rewrite app_nil_r. Qed.

Lemma append_append (a b : jsstring) (s : state) :
  append b (snd (append a s)) = append (a ++ b) s.
Proof. unfold append. cbn. now rewrite app_assoc. Qed.

Lemma then_text (m k : M unit) (a b : jsstring) :
  (forall s, m s = append a s) -> (forall s, k s = append b s) ->
  forall s, bind m (fun _ => k) s = append (a ++ b) s.
Proof.
  intros Hm Hk s. unfold bind. rewrite Hm. cbn [append].
  rewrite Hk. unfold append. cbn. now rewrite app_assoc.
Qed.

Lemma for_of_text A (l : list A) (body : A -> M unit) (f : A -> jsstring) :
  (forall x s, body x s = append (f x) s) ->
  forall s, for_of l body s = append (List.concat (map f l)) s.
Proof.
  intros Hb. induction l as [|x l IH]; intros s; cbn [for_of map List.concat].
  - symmetry. apply append_nil.
  - apply then_text; [apply Hb | apply IH].
Qed.

Lemma render_group_text (g : typeGroup) (s : state) :
  render_group g s = append (group_text g) s.
Proof.
  unfold render_group, group_text.
  destruct (group_changes g) as [[|c l]|]; cbn [List.length Nat.eqb];
    try (symmetry; apply append_nil).
  etransitivity.
  { apply then_text; [reflexivity|]. intros s'.
    apply then_text; [|reflexivity].
    apply for_of_text with (f := entry_line). reflexivity. }
  f_equal; rewrite <- ?app_assoc; reflexivity.
Qed.

(** X17: a group is rendered as the heading of its type ([Misc] when
    it has none), one line per change in the order given and an empty
    line; a group whose list of changes is missing or empty adds
    nothing, not even its heading. *)
Theorem render_group_appends (g : typeGroup) (s : state) :
  render_group g s
  = (Normal tt,
     {| releaseNotesSection := releaseNotesSection s ++ group_text g;
        hasReleaseNotes := hasReleaseNotes s;
        calls := calls s;
        trace := trace s |}).
Proof. apply render_group_text. Qed.

Lemma render_record_text (r : changeRecord) (s : state) :
  render_record r s = append (record_text r) s.
Proof.
  unfold render_record, record_text. cbv zeta.
  destruct (_ && _); [reflexivity | symmetry; apply append_nil].
Qed.

Lemma render_notes_text (pkg : package) (mappedFrom mappedTo : jsstring)
      (data : option body) (groups : list typeGroup) (s : state) :
  render_notes pkg mappedFrom mappedTo data groups s
  = append (notes_text pkg mappedFrom mappedTo data groups)
           (snd (set_hasReleaseNotes true s)).
Proof.
  unfold render_notes. unfold bind at 1. cbn [set_hasReleaseNotes snd].
  etransitivity.
  { apply then_text; [reflexivity|]. intros s1.
    apply then_text; [reflexivity|]. intros s2.
    apply then_text; [apply for_of_text with (f := group_text); apply render_group_text|].
    intros s3.
    apply then_text with (a := records_text data); [|reflexivity].
    intros s4. unfold records_text.
    destruct (data_changeRecords data) as [|r recs];
      cbn [List.length Nat.ltb Nat.leb].
    - symmetry. apply append_nil.
    - etransitivity.
      { apply then_text; [reflexivity|]. intros s5.
        apply then_text; [|reflexivity].
        apply for_of_text with (f := record_text); apply render_record_text. }
      f_equal; rewrite <- ?app_assoc; reflexivity. }
  f_equal. unfold notes_text, heading, version_line, compare_link. text_eq.
Qed.

(** X18: for a response with a non-empty [changes], the changelog
    request of a package adds exactly this to the section: the
    heading, the version line with the compare link, the groups in
    the order given, the change records and an empty line.  It sets
    [hasReleaseNotes], makes one request and logs nothing. *)
Theorem fetch_changelog_notes (w : world) (pkg : package)
        (mappedFrom mappedTo : jsstring) (s : state) (r : response)
        (data : option body) (g : typeGroup) (gs : list typeGroup) :
  network w (calls s) (apiUrl pkg mappedFrom mappedTo) = Resolves r ->
  ok r = true ->
  json r = JsonValue data ->
  data_changes data = Some (g :: gs) ->
  fetch_changelog w pkg mappedFrom mappedTo s
  = (Normal tt,
     {| releaseNotesSection :=
          releaseNotesSection s
            ++ notes_text pkg mappedFrom mappedTo data (g :: gs);
        hasReleaseNotes := true;
        calls := S (calls s);
        trace := trace s ++ [Fetch (apiUrl pkg mappedFrom mappedTo)] |}).
Proof.
  intros Hnet Hok Hjson Hch.
  unfold fetch_changelog, try_catch. unfold bind at 1. unfold fetch.
  rewrite Hnet, Hok. cbn [negb].
  unfold bind at 1. unfold response_json. rewrite Hjson. cbn [ret].
  rewrite Hch. cbn [List.length Nat.ltb Nat.leb].
  rewrite render_notes_text. reflexivity.
Qed.

Lemma fetch_changelog_notes_witness :
  fetch_changelog two_groups_world (token_pkg (js "1.0.0") (js "1.1.0"))
                  (js "1.0.0") (js "1.1.0") loop_start
  = (Normal tt,
     {| releaseNotesSection :=
          initial_section
            ++ notes_text (token_pkg (js "1.0.0") (js "1.1.0"))
                 (js "1.0.0") (js "1.1.0") (Some two_groups)
                 [ {| group_type := Text (js "Bug");
                      group_changes :=
                        Some [ {| nid := Text (js "1");
                                  link := Text (js "https://www.drupal.org/i/1");
                                  summary := js "#1 by alice, bob: First" |};
                               {| nid := Text (js "2");
                                  link := Text (js "https://www.drupal.org/i/2");
                                  summary := js "#2: Second" |} ] |};
                   {| group_type := Undefined; group_changes := Some [] |} ];
        hasReleaseNotes := true;
        calls := 1;
        trace := [Fetch (apiUrl (token_pkg (js "1.0.0") (js "1.1.0"))
                                (js "1.0.0") (js "1.1.0"))] |}).
Proof.
  apply (@fetch_changelog_notes two_groups_world
           (token_pkg (js "1.0.0") (js "1.1.0")) (js "1.0.0") (js "1.1.0")
           loop_start
           {| ok := true; status := 200; json := JsonValue (Some two_groups) |}
           (Some two_groups)).
  - reflexivity.
  - reflexivity.
  - reflexivity.
  - reflexivity.
Defined.

(** The text of that section, in full. *)
Example two_groups_text :
  notes_text (token_pkg (js "1.0.0") (js "1.1.0")) (js "1.0.0") (js "1.1.0")
             (Some two_groups)
             (match changes two_groups with Some l => l | None => [] end)
  = js "### drupal/token" ++ nl ++ nl
      ++ js "**1.0.0 " ++ arrow
      ++ js " [1.1.0](https://www.drupal.org/project/token/releases/1.1.0)**"
      ++ js " ([compare](https://git.drupalcode.org/project/token/-/compare/1.0.0...1.1.0))"
      ++ nl ++ nl
      ++ js "#### Bug" ++ nl ++ nl
      ++ js "* [#1](https://www.drupal.org/i/1): First" ++ nl
      ++ js "* [#2](https://www.drupal.org/i/2): Second" ++ nl ++ nl
      ++ js "#### Change Records" ++ nl ++ nl
      ++ js "* [A change](https://www.drupal.org/node/3)" ++ nl ++ nl ++ nl.
Proof. vm_compute. reflexivity. Qed.

Lemma unusable_text (recs : list changeRecord) :
  Forall unusable recs -> List.concat (map record_text recs) = [].
Proof.
  induction 1 as [|r recs Hr _ IH]; [reflexivity|].
  cbn [map List.concat]. rewrite IH. unfold record_text. cbv zeta.
  unfold unusable in Hr. now rewrite Hr.
Qed.

(** X19: when a response has change records but none of them can be
    rendered, the section still carries the heading
    [#### Change Records], with no line under it. *)
Theorem change_records_heading_alone (pkg : package)
        (mappedFrom mappedTo : jsstring) (data : option body)
        (groups : list typeGroup) (s : state) :
  data_changeRecords data <> [] ->
  Forall unusable (data_changeRecords data) ->
  releaseNotesSection (snd (render_notes pkg mappedFrom mappedTo data groups s))
  = releaseNotesSection s
      ++ heading pkg ++ version_line pkg mappedTo
      ++ compare_link pkg mappedFrom mappedTo ++ nl ++ nl
      ++ List.concat (map group_text groups)
      ++ js "#### Change Records" ++ nl ++ nl ++ nl ++ nl.
Proof.
  intros Hne Hun. rewrite render_notes_text.
  cbn [append snd set_hasReleaseNotes releaseNotesSection].
  unfold notes_text, records_text.
  destruct (data_changeRecords data) as [|r recs] eqn:E; [congruence|].
  rewrite (unusable_text Hun). reflexivity.
Qed.

Lemma change_records_heading_alone_witness :
  releaseNotesSection
    (snd (render_notes (token_pkg (js "1.0.0") (js "1.1.0"))
                       (js "1.0.0") (js "1.1.0") (Some untitled_record) []
                       loop_start))
  = initial_section
      ++ heading (token_pkg (js "1.0.0") (js "1.1.0"))
      ++ version_line (token_pkg (js "1.0.0") (js "1.1.0")) (js "1.1.0")
      ++ compare_link (token_pkg (js "1.0.0") (js "1.1.0")) (js "1.0.0") (js "1.1.0")
      ++ nl ++ nl ++ List.concat (map group_text [])
      ++ js "#### Change Records" ++ nl ++ nl ++ nl ++ nl.
Proof.
  apply (@change_records_heading_alone
           (token_pkg (js "1.0.0") (js "1.1.0")) (js "1.0.0") (js "1.1.0")
           (Some untitled_record) [] loop_start).
  - discriminate.
  - repeat constructor.
Defined.

(** ** Every package is accounted for *)




(** ** The tag fetcher and the mapped request *)

(** X21: when the tag request succeeds with a body, the result is the
    [name] of each tag in the order of the response, one request has
    been made and nothing is logged. *)
Theorem fetchProjectTags_success (w : world) (project : jsstring) (s : state)
        (r : response) (d : body) :
  network w (calls s) (project_url project) = Resolves r ->
  ok r = true ->
  json r = JsonValue (Some d) ->
  fetchProjectTags w project s
  = (Normal (match tags d with Some l => map name l | None => [] end),
     {| releaseNotesSection := releaseNotesSection s;
        hasReleaseNotes := hasReleaseNotes s;
        calls := S (calls s);
        trace := trace s ++ [Fetch (project_url project)] |}).
Proof.
  intros Hnet Hok Hjson.
  unfold fetchProjectTags, try_catch. unfold bind at 1. unfold fetch.
  fold (project_url project). rewrite Hnet, Hok. cbn [negb].
  unfold bind, response_json. rewrite Hjson. cbn [ret].
  destruct (tags d); reflexivity.
Qed.

Lemma fetchProjectTags_success_witness :
  fetchProjectTags legacy_world (js "token") initial_state
  = (Normal [js "8.x-1.38"; js "8.x-1.40"],
     {| releaseNotesSection := [];
        hasReleaseNotes := false;
        calls := 1;
        trace := [Fetch (project_url (js "token"))] |}).
Proof.
  apply (@fetchProjectTags_success legacy_world (js "token") initial_state
           {| ok := true; status := 200; json := JsonValue (Some legacy_tags) |}
           legacy_tags).
  - reflexivity.
  - reflexivity.
  - reflexivity.
Defined.

Lemma mapVersionToTag_nil (v : jsstring) : mapVersionToTag v [] = v.
Proof.
  unfold mapVersionToTag. cbn [array_includes existsb].
  now destruct (Regex.match_ semver_re v) as [[|major [|minor caps]]|].
Qed.

Lemma failed_tags (w : world) (pkg : package) (s : state) :
  failed (network w (calls s) (project_url (project pkg))) ->
  fetched_tags w pkg s = [].
Proof.
  unfold fetched_tags, fetchProjectTags, try_catch. unfold bind at 1. unfold fetch.
  fold (project_url (project pkg)).
  destruct (network w (calls s) (project_url (project pkg))) as [e | r];
    cbn [failed]; [reflexivity|].
  intros ->. reflexivity.
Qed.

(** X22: when the tag request of a package fails, the changelog is
    still requested, for the versions as they were given. *)
Theorem tags_failure_keeps_versions (w : world) (pkg : package) (s : state) :
  failed (network w (calls s) (project_url (project pkg))) ->
  fetched_urls (trace (snd (process_package w pkg s)))
  = fetched_urls (trace s)
      ++ [project_url (project pkg); apiUrl pkg (from pkg) (to pkg)].
Proof.
  intros H. rewrite !fetched_urls_requests, process_package_requests.
  unfold package_requests. rewrite (failed_tags w pkg s H).
  now rewrite !mapVersionToTag_nil.
Qed.

Lemma tags_failure_keeps_versions_witness :
  fetched_urls
    (trace (snd (process_package no_tags_service_world
                                 (token_pkg (js "1.38.0") (js "1.40.0"))
                                 loop_start)))
  = fetched_urls (trace loop_start)
      ++ [project_url (js "token");
          apiUrl (token_pkg (js "1.38.0") (js "1.40.0")) (js "1.38.0") (js "1.40.0")].
Proof.
  apply (@tags_failure_keeps_versions no_tags_service_world
           (token_pkg (js "1.38.0") (js "1.40.0")) loop_start).
  reflexivity.
Defined.

(** ** Trimming *)

Lemma dropWhile_run (p : N -> bool) (ws rest : jsstring) :
  all p ws -> stops p rest -> dropWhile p (ws ++ rest) = rest.
Proof.
  intros Hws Hrest. induction Hws as [|c ws Hc _ IH]; cbn [app dropWhile].
  - destruct rest as [|c rest]; [reflexivity|].
    cbn [dropWhile]. cbn [stops] in Hrest. now rewrite Hrest.
  - now rewrite Hc.
Qed.

(** X23: [trim] removes exactly the white space around a text: a text
    that neither starts nor ends with white space comes back as it is
    from between any two runs of white space, so names and versions
    may be written with spaces after the commas. *)
Theorem trim_spec (before text after : jsstring) :
  all is_space before -> all is_space after ->
  stops is_space text -> stops is_space (rev text) ->
  trim (before ++ text ++ after) = text.
Proof.
  intros Hb Ha Hs He. unfold trim.
  destruct text as [|c text].
  - cbn [app]. rewrite <- (app_nil_r (before ++ after)).
    rewrite dropWhile_run; [reflexivity | | exact I].
    apply Forall_app. now split.
  - rewrite dropWhile_run; [| assumption | exact Hs].
    rewrite rev_app_distr.
    rewrite dropWhile_run; [apply rev_involutive | | exact He].
    now apply Forall_rev.
Qed.

Lemma trim_spec_witness :
  trim (js "  " ++ js "drupal/token" ++ js " ") = js "drupal/token".
Proof.
  apply (@trim_spec (js "  ") (js "drupal/token") (js " ")).
  - repeat constructor.
  - repeat constructor.
  - reflexivity.
  - reflexivity.
Defined.

(** ** The flag of the loop *)

Lemma stays_set_refl (s : state) : stays_set s s.
Proof. intros H. exact H. Qed.

Lemma stays_set_trans (a b c : state) :
  stays_set a b -> stays_set b c -> stays_set a c.
Proof. unfold stays_set. auto. Qed.

(** Decomposes a goal [preserves stays_set m] along the structure of
    [m]. *)
Ltac stays_set :=
  repeat first
    [ apply preserves_bind; [exact stays_set_trans | | intro]
    | apply preserves_try_catch; [exact stays_set_trans | | intro]
    | apply preserves_for_of; [exact stays_set_refl | exact stays_set_trans | intro]
    | apply preserves_ret; exact stays_set_refl
    | apply preserves_throw; exact stays_set_refl
    | match goal with
      | |- preserves _ (if ?b then _ else _) => destruct b
      | |- preserves _ (match ?x with _ => _ end) => destruct x
      | |- preserves _ (fetch ?w ?url) =>
          let s := fresh "s" in
          intros s; unfold fetch, stays_set;
          destruct (network w (calls s) url); trivial
      | |- preserves _ _ =>
          let s := fresh "s" in intros s; unfold stays_set; trivial
      end ].

Lemma stays_set_process_package (w : world) (pkg : package) :
  preserves stays_set (process_package w pkg).
Proof.
  unfold process_package, fetchProjectTags, fetch_changelog, render_notes,
    render_no_notes, render_group, render_record, response_json,
    core_info, core_warning, core_error.
  stays_set.
Qed.

(** X24: the loop never clears [hasReleaseNotes]: once a package has
    brought release notes, the packages after it, whatever becomes of
    their requests, leave the flag set, so the log that no release
    notes were retrieved is only written when no package brought any. *)
Theorem loop_keeps_flag (w : world) (pkgs : list package) (s : state) :
  hasReleaseNotes s = true ->
  hasReleaseNotes (snd (for_of pkgs (process_package w) s)) = true.
Proof.
  apply (preserves_for_of stays_set_refl stays_set_trans).
  intros pkg. apply stays_set_process_package.
Qed.

Lemma loop_keeps_flag_witness :
  hasReleaseNotes
    (snd (for_of (drupalPackages (env failing_world)) (process_package failing_world)
                 (snd (set_hasReleaseNotes true loop_start)))) = true.
Proof.
  apply (@loop_keeps_flag failing_world (drupalPackages (env failing_world))
           (snd (set_hasReleaseNotes true loop_start))).
  reflexivity.
Defined.
